(** * InstaRecon: target classification, scan orchestration and CSV export

    A shallow embedding of [instarecon.py].  The class [InstaRecon] and
    the [__main__] block are translated statement by statement into a
    state-and-exception monad.  Everything the script imports
    ([ipaddress], [dns.resolver], [src.host], [src.lookup], the console
    and the file system) is a collaborator: its text parsers and network
    answers are fields of the class [Collaborators], and every theorem
    holds for all of them. *)

From Stdlib Require Import ZArith Lia Ascii DecimalString Sorted.
From Stdlib Require OrderedTypeEx.
From stdpp Require Import base gmap strings list.

Local Open Scope string_scope.
Local Open Scope Z_scope.

(** ** Python exceptions and results *)

(** The exception classes that the script names, plus those its
    collaborators document.  [ValueError] stands for the class and its
    subclasses ([AddressValueError], [NetmaskValueError],
    [UnicodeDecodeError]); [DNSSyntaxError] is [dns.exception.SyntaxError]
    with its subclasses. *)
Inductive exn : Type :=
| ValueError
| NXDOMAIN
| DNSSyntaxError
| NoNameservers
| NoAnswer
| Timeout
| IOError (msg : string)
| KeyboardInterrupt
| SystemExit (msg : string).

#[global] Instance exn_eq_dec : EqDecision exn.
Proof. solve_decision. Defined.

(** [except Exception]: every class but the two that derive from
    [BaseException] directly. *)
Definition is_Exception (e : exn) : bool :=
  match e with
  | KeyboardInterrupt | SystemExit _ => false
  | _ => true
  end.

(** [str(e)] as used in the retry prompt. *)
Definition str_exn (e : exn) : string :=
  match e with
  | IOError msg | SystemExit msg => msg
  | ValueError => "ValueError"
  | NXDOMAIN => "NXDOMAIN"
  | DNSSyntaxError => "SyntaxError"
  | NoNameservers => "NoNameservers"
  | NoAnswer => "NoAnswer"
  | Timeout => "Timeout"
  | KeyboardInterrupt => ""
  end.

Inductive result (A : Type) : Type :=
| Ok (a : A)
| Raise (e : exn).
Arguments Ok {A} a.
Arguments Raise {A} e.

(** ** The [ipaddress] module: addresses, networks and masks *)

Module ipa.

Inductive version : Type := V4 | V6.

#[global] Instance version_eq_dec : EqDecision version.
Proof. solve_decision. Defined.

Definition max_prefixlen (v : version) : Z :=
  match v with V4 => 32 | V6 => 128 end.

Definition ALL_ONES (v : version) : Z := 2 ^ max_prefixlen v - 1.

(** An [IPv4Address] / [IPv6Address]: the version and the integer [_ip]. *)
Record address : Type := Address { version_of : version; ip_int : Z }.

(** An [IPv4Network] / [IPv6Network]. *)
Record network : Type :=
  Network { net_version : version; network_address : Z; prefixlen : Z }.

#[global] Instance address_eq_dec : EqDecision address.
Proof. solve_decision. Defined.
#[global] Instance network_eq_dec : EqDecision network.
Proof. solve_decision. Defined.

(** [_ip_int_from_prefix]: [ALL_ONES ^ (ALL_ONES >> prefixlen)]. *)
Definition ip_int_from_prefix (v : version) (p : Z) : Z :=
  Z.lxor (ALL_ONES v) (Z.shiftr (ALL_ONES v) p).

Definition netmask (n : network) : Z :=
  ip_int_from_prefix (net_version n) (prefixlen n).

(** [hostmask]: [netmask ^ ALL_ONES]. *)
Definition hostmask (n : network) : Z :=
  Z.lxor (netmask n) (ALL_ONES (net_version n)).

(** [_split_optional_netmask]: [address.split('/')], refusing more than
    two pieces. *)
Fixpoint split_slash (s : string) : string * option string :=
  match s with
  | EmptyString => (EmptyString, None)
  | String c rest =>
      if Ascii.eqb c "/"%char then (EmptyString, Some rest)
      else let '(a, m) := split_slash rest in (String c a, m)
  end.

Fixpoint has_slash (s : string) : bool :=
  match s with
  | EmptyString => false
  | String c rest => Ascii.eqb c "/"%char || has_slash rest
  end.

Definition split_optional_netmask (s : string) : option (string * option string) :=
  match split_slash s with
  | (a, Some m) => if has_slash m then None else Some (a, Some m)
  | (a, None) => Some (a, None)
  end.

Section Constructors.
(** The text parsers of the module ([_ip_int_from_string] for either
    version, [_prefix_from_prefix_string] with its netmask fallback);
    [None] is the library's [AddressValueError] /
    [NetmaskValueError]. *)
Variable ip_from_text : string → option address.
Variable prefix_from_text : version → string → option Z.

(** [ipaddress.ip_address(address)]. *)
Definition ip_address (text : string) : result address :=
  if has_slash text then Raise ValueError
  else match ip_from_text text with
       | Some a => Ok a
       | None => Raise ValueError
       end.

(** The address and the prefix length that a network text denotes,
    before any masking: the first half of the network constructors. *)
Definition network_from_text (text : string) : option (address * Z) :=
  match split_optional_netmask text with
  | None => None
  | Some (addr_text, mask_text) =>
      match ip_from_text addr_text with
      | None => None
      | Some a =>
          let v := version_of a in
          let prefix := match mask_text with
                        | Some m => prefix_from_text v m
                        | None => Some (max_prefixlen v)
                        end in
          match prefix with
          | None => None
          | Some p =>
              if (0 <=? p) && (p <=? max_prefixlen v) then Some (a, p) else None
          end
      end
  end.

(** The network of an address and a prefix length: the address with its
    host bits cleared. *)
Definition masked (a : address) (p : Z) : network :=
  Network (version_of a) (Z.land (ip_int a) (ip_int_from_prefix (version_of a) p)) p.

(** [ipaddress.ip_network(address, strict)]: with [strict] an address
    with host bits set is refused, without it they are masked away. *)
Definition ip_network (text : string) (strict : bool) : result network :=
  match network_from_text text with
  | None => Raise ValueError
  | Some (a, p) =>
      if strict && negb (Z.land (ip_int a) (ip_int_from_prefix (version_of a) p) =? ip_int a)
      then Raise ValueError
      else Ok (masked a p)
  end.
End Constructors.

End ipa.

(** ** Targets *)

(** Modelled from the spec: the class [IP] of [src/ip.py], which is not
    part of the sources at hand: one address of a Host with its reverse
    names, whois text and port intelligence. *)
Record IP : Type := mkIP {
  ip : string;
  rev_domains : list string;
  whois_ip : option string;
  shodan : option string
}.

(** Modelled from the spec: the class [Host] of [src/host.py] (section 3:
    IPs, optional domain, NS and MX records, whois text, owning CIDRs,
    subdomains, social-profile reference).  The constructor
    [Host(domain=None, ips=())] fills the two fields it is given and
    leaves the rest empty. *)
Record Host : Type := mkHost {
  domain : option string;
  ips : list IP;
  ns : list string;
  mx : list string;
  whois_domain : option string;
  cidrs : list ipa.network;
  subdomains : list string;
  linkedin_page : option string
}.

(** Modelled from the spec: the class [Network] of [src/host.py]: its
    CIDR ranges and the results of the reverse sweep. *)
Record Network : Type := mkNetwork {
  net_cidrs : list ipa.network;
  related_hosts : list (string * option string)
}.

Inductive Target : Type :=
| THost (h : Host)
| TNetwork (n : Network).

#[global] Instance IP_eq_dec : EqDecision IP.
Proof. solve_decision. Defined.
#[global] Instance Host_eq_dec : EqDecision Host.
Proof. solve_decision. Defined.
#[global] Instance Network_eq_dec : EqDecision Network.
Proof. solve_decision. Defined.
(** Modelled from the spec: [__eq__] / [__hash__] of [Host] and
    [Network] (section 3: uniqueness by value, structural equality). *)
#[global] Instance Target_eq_dec : EqDecision Target.
Proof. solve_decision. Defined.

Definition new_IP (s : string) : IP := mkIP s [] None None.

(** [Host(domain=d, ips=[...])]. *)
Definition new_Host (d : option string) (addrs : list string) : Host :=
  mkHost d (new_IP <$> addrs) [] [] None [] [] None.

(** [Network([net])]. *)
Definition new_Network (nets : list ipa.network) : Network := mkNetwork nets [].

(** [set.add] on the target set.  The list holds the objects of the set;
    an object equal to one already present is not added. *)
Definition set_add (t : Target) (s : list Target) : list Target :=
  if decide (t ∈ s) then s else s ++ [t].

(** Python truthiness of the values the script tests. *)
Definition truthy (s : string) : bool := negb (String.eqb s "").
Definition truthy_opt (o : option string) : bool :=
  match o with Some s => truthy s | None => false end.
Definition nonempty {A} (l : list A) : bool :=
  match l with [] => false | _ => true end.

Definition newline : string := String (ascii_of_nat 10) EmptyString.

Definition str_nat (n : nat) : string := NilZero.string_of_uint (Nat.to_uint n).

(** ** Program state, events and the monad *)

(** The module-level settings of [src.lookup] that the script assigns:
    the resolver's nameserver list, its two timeouts and the Shodan
    key. *)
Record lookup_module : Type := mkLookup {
  nameservers : option (list string);
  timeout : option Z;
  lifetime : option Z;
  shodan_key : option string
}.

(** The attributes of an [InstaRecon] object. *)
Record InstaRecon : Type := mkInstaRecon {
  dns_only : bool;
  targets : list Target;
  bad_targets : gset string
}.

Inductive interpretation : Type := AsIP | AsCIDR | AsDNS.

Inductive phase : Type :=
| DnsLookups | NsLookup | MxLookup | WhoisDomain | WhoisIP
| Shodan | GoogleLookups | ReverseSweep.

(** What a run does that is visible from outside: a line that a [print]
    statement of the script composes, a listing that a [print] statement
    takes whole from a method of the target, an interpretation tried on
    a raw input, a lookup phase entered, a prompt shown on the console,
    an attempt at the output file. *)
Inductive event : Type :=
| Stdout (line : string)
| Listing (text : string)
| Attempt (k : interpretation) (raw : string)
| Enter (p : phase)
| Prompt (msg : string)
| OpenFile (path : string).

#[global] Instance interpretation_eq_dec : EqDecision interpretation.
Proof. solve_decision. Defined.
#[global] Instance phase_eq_dec : EqDecision phase.
Proof. solve_decision. Defined.
#[global] Instance event_eq_dec : EqDecision event.
Proof. solve_decision. Defined.

Definition row : Type := list string.

(** One pass through the [with open(filename, 'wb')] block.  Either the
    block is left normally, every row written; or an exception is
    raised before the last statement of the block,
    [output_written = True], is reached, which leaves the file
    untouched ([None], raised by [open]) or truncated to its first [k]
    rows ([Some k]); or every statement of the block has run, the flag
    included, and the exception is raised as the block is left, when
    the file is closed, with [k] rows on disk. *)
Inductive write_outcome : Type :=
| Written
| Broke (e : exn) (partial : option nat)
| BrokeOnExit (e : exn) (k : nat).

(** The collaborators.  [W] is the state of the outside world (DNS,
    whois servers, disk, keyboard); a call may change it and may
    raise. *)
Class Collaborators (W : Type) : Type := {
  unicode_escape : string → result string;
  ip_from_text : string → option ipa.address;
  prefix_from_text : ipa.version → string → option Z;
  str_address : ipa.address → string;
  str_network : ipa.network → string;
  dns_query : lookup_module → string → W → result (list string) * W;
  (* methods of Host and Network that perform lookups *)
  dns_lookups : lookup_module → Host → W → result Host * W;
  ns_dns_lookup : lookup_module → Host → W → result Host * W;
  mx_dns_lookup : lookup_module → Host → W → result Host * W;
  get_whois_domain : lookup_module → Host → W → result Host * W;
  get_whois_ip : lookup_module → Host → W → result Host * W;
  get_all_shodan : lookup_module → string → Host → W → result Host * W;
  google_lookups : lookup_module → Host → W → result Host * W;
  host_reverse_lookup_on_related_cidrs :
    lookup_module → bool → Host → W → result Host * W;
  net_reverse_lookup_on_related_cidrs :
    lookup_module → bool → Network → W → result Network * W;
  (* methods that format *)
  str_Host : Host → string;
  str_Network : Network → string;
  str_IP : IP → string;
  print_all_ips : Host → string;
  print_all_ns : Host → string;
  print_all_mx : Host → string;
  print_whois_ip : IP → string;
  print_all_shodan : Host → string;
  print_subdomains : Host → string;
  print_dns_only : Host → string;
  print_as_csv_lines : Target → list row;
  (* operating system *)
  expanduser : string → string;
  getenv : string → option string;
  open_and_write : string → list row → W → write_outcome * W;
  raw_input : string → W → result string * W
}.

Record state (W : Type) : Type := mkState {
  self : InstaRecon;
  lookup : lookup_module;
  world : W;
  trace : list event;
  files : gmap string (list row)
}.
Arguments mkState {W}.
Arguments self {W}.
Arguments lookup {W}.
Arguments world {W}.
Arguments trace {W}.
Arguments files {W}.

Definition M (W A : Type) : Type := state W → result A * state W.

#[global] Instance M_ret {W} : MRet (M W) := λ A a s, (Ok a, s).
#[global] Instance M_bind {W} : MBind (M W) := λ A B f m s,
  match m s with
  | (Ok a, s') => f a s'
  | (Raise e, s') => (Raise e, s')
  end.

Section Monad.
Context {W : Type}.

Definition raise {A} (e : exn) : M W A := λ s, (Raise e, s).

Definition get : M W (state W) := λ s, (Ok s, s).

Definition emit (e : event) : M W unit := λ s,
  (Ok (), mkState (self s) (lookup s) (world s) (trace s ++ [e])%list (files s)).

(** The [print] statement. *)
Definition print (line : string) : M W unit := emit (Stdout line).

(** [print target.method()]: the text is the method's. *)
Definition print_listing (text : string) : M W unit := emit (Listing text).

Definition set_self (r : InstaRecon) : M W unit := λ s,
  (Ok (), mkState r (lookup s) (world s) (trace s) (files s)).

Definition set_files (fs : gmap string (list row)) : M W unit := λ s,
  (Ok (), mkState (self s) (lookup s) (world s) (trace s) fs).

(** A pure computation that may raise. *)
Definition lift {A} (r : result A) : M W A := λ s, (r, s).

(** A call that goes out to the world. *)
Definition call {A} (f : W → result A * W) : M W A := λ s,
  let '(r, w) := f (world s) in
  (r, mkState (self s) (lookup s) w (trace s) (files s)).

(** [try: body except <classes>: handler]. *)
Definition try_except {A} (body : M W A) (classes : exn → bool)
    (handler : exn → M W A) : M W A := λ s,
  match body s with
  | (Raise e, s') => if classes e then handler e s' else (Raise e, s')
  | r => r
  end.

(** [for x in l: body(x)]. *)
Fixpoint for_each {A} (l : list A) (body : A → M W unit) : M W unit :=
  match l with
  | [] => mret ()
  | x :: l' => body x;; for_each l' body
  end.

(** [self.targets.add(t)] and [self.bad_targets.add(s)]. *)
Definition targets_add (t : Target) : M W unit :=
  s ← get;
  set_self (mkInstaRecon (dns_only (self s)) (set_add t (targets (self s)))
                         (bad_targets (self s))).

Definition bad_targets_add (raw : string) : M W unit :=
  s ← get;
  set_self (mkInstaRecon (dns_only (self s)) (targets (self s))
                         ({[raw]} ∪ bad_targets (self s))).

End Monad.

(** ** The class [InstaRecon] *)

Section InstaRecon.
Context {W : Type} `{Collaborators W}.

(** [InstaRecon.__init__]: the object and the settings it writes into
    [src.lookup]. *)
Definition init (nameserver : option string) (tmo : option Z)
    (key : option string) (verbose dns_only_flag : bool)
    (before : lookup_module) : InstaRecon * lookup_module :=
  let ns' := match nameserver with
             | Some n => if truthy n then Some [n] else nameservers before
             | None => nameservers before
             end in
  let '(t', l') := match tmo with
                   | Some t => if negb (t =? 0) then (Some t, Some t)
                               else (timeout before, lifetime before)
                   | None => (timeout before, lifetime before)
                   end in
  (mkInstaRecon dns_only_flag [] ∅, mkLookup ns' t' l' key).

Definition is_ValueError (e : exn) : bool := bool_decide (e = ValueError).

Definition is_NXDOMAIN_or_SyntaxError (e : exn) : bool :=
  bool_decide (e = NXDOMAIN) || bool_decide (e = DNSSyntaxError).

(** [InstaRecon.add_host].  Each [try] block yields [true] when it ends
    in [return] and [false] when its handler falls through. *)
Definition add_host (user_supplied : string) : M W unit :=
  returned ← try_except
    (emit (Attempt AsIP user_supplied);;
     text ← lift (unicode_escape user_supplied);
     a ← lift (ipa.ip_address ip_from_text text);
     targets_add (THost (new_Host None [str_address a]));;
     mret true)
    is_ValueError
    (λ _, mret false);
  if returned : bool then mret () else
  returned ← try_except
    (emit (Attempt AsCIDR user_supplied);;
     text ← lift (unicode_escape user_supplied);
     net ← lift (ipa.ip_network ip_from_text prefix_from_text text false);
     targets_add (TNetwork (new_Network [net]));;
     mret true)
    is_ValueError
    (λ _, mret false);
  if returned : bool then mret () else
  returned ← try_except
    (emit (Attempt AsDNS user_supplied);;
     s ← get;
     answers ← call (dns_query (lookup s) user_supplied);
     targets_add (THost (new_Host (Some user_supplied) answers));;
     mret true)
    is_NXDOMAIN_or_SyntaxError
    (λ _, print ("[-] Couldn't resolve or understand - " ++ user_supplied);;
          mret false);
  if returned : bool then mret () else
  bad_targets_add user_supplied.

(** [InstaRecon.populate]. *)
Definition populate (user_supplied_list : list string) : M W unit :=
  for_each user_supplied_list add_host;;
  s ← get;
  if negb (nonempty (targets (self s))) then
    print "# No hosts to scan"
  else
    print ("# Scanning " ++ str_nat (length (targets (self s))) ++ "/"
           ++ str_nat (length user_supplied_list) ++ " hosts");;
    if negb (dns_only (self s)) then
      if negb (truthy_opt (shodan_key (lookup s))) then
        print "# No Shodan key provided"
      else
        print ("# Shodan key provided - " ++ default "" (shodan_key (lookup s)))
    else mret ().

(** [if c: body] for a body that returns nothing. *)
Definition when (c : bool) (body : M W unit) : M W unit :=
  if c then body else mret ().

(** Entering a lookup phase: the method call on the target. *)
Definition enter {A} (p : phase) (f : W → result A * W) : M W A :=
  emit (Enter p);; call f.

(** [InstaRecon.reverse_dns_on_network]. *)
Definition reverse_dns_on_network (network : Network) : M W Network :=
  print "";;
  print ("# _____________ Reverse DNS lookups on " ++ str_Network network
         ++ " _____________ #");;
  s ← get;
  enter ReverseSweep (net_reverse_lookup_on_related_cidrs (lookup s) true network).

(** [InstaRecon.full_scan_on_host].  The host object is threaded through
    the method calls that update it. *)
Definition full_scan_on_host (host : Host) : M W Host :=
  print "";;
  print ("# ____________________ Scanning " ++ str_Host host
         ++ " ____________________ #");;
  print "";;
  print "# DNS lookups";;
  s ← get;
  host ← enter DnsLookups (dns_lookups (lookup s) host);
  when (truthy_opt (domain host))
       (print ("[*] Domain: " ++ default "" (domain host)));;
  when (nonempty (ips host))
       (print "";; print "[*] IPs & reverse DNS: ";; print_listing (print_all_ips host));;
  s ← get;
  host ← enter NsLookup (ns_dns_lookup (lookup s) host);
  when (nonempty (ns host))
       (print "";; print "[*] NS records:";; print_listing (print_all_ns host));;
  s ← get;
  host ← enter MxLookup (mx_dns_lookup (lookup s) host);
  when (nonempty (mx host))
       (print "";; print "[*] MX records:";; print_listing (print_all_mx host));;
  print "";;
  print "# Whois lookups";;
  s ← get;
  host ← enter WhoisDomain (get_whois_domain (lookup s) host);
  when (truthy_opt (whois_domain host))
       (print "";; print "[*] Whois domain:";;
        print_listing (default "" (whois_domain host)));;
  s ← get;
  host ← enter WhoisIP (get_whois_ip (lookup s) host);
  for_each (ips host) (λ i,
    let m := print_whois_ip i in
    when (truthy m)
         (print "";; print ("[*] Whois IP for " ++ str_IP i ++ ":");;
          print_listing m));;
  s ← get;
  host ← (if truthy_opt (shodan_key (lookup s)) then
            print "";;
            print "# Querying Shodan for open ports";;
            host ← enter Shodan
                     (get_all_shodan (lookup s) (default "" (shodan_key (lookup s))) host);
            let m := print_all_shodan host in
            when (truthy m) (print "[*] Shodan:";; print_listing m);;
            mret host
          else mret host);
  host ← (if truthy_opt (domain host) then
            print "";;
            print "# Querying Google for subdomains and Linkedin pages, this might take a while";;
            s ← get;
            host ← enter GoogleLookups (google_lookups (lookup s) host);
            when (truthy_opt (linkedin_page host))
                 (print ("[*] Possible LinkedIn page: "
                         ++ default "" (linkedin_page host)));;
            (if nonempty (subdomains host) then
               print ("[*] Subdomains:" ++ newline ++ print_subdomains host)
             else
               print "[-] Error: No subdomains found in Google. If you are scanning a lot, Google might be blocking your requests.");;
            mret host
          else mret host);
  if nonempty (cidrs host) then
    print "";;
    print ("# Reverse DNS lookup on range "
           ++ String.concat ", " (str_network <$> cidrs host));;
    s ← get;
    enter ReverseSweep (host_reverse_lookup_on_related_cidrs (lookup s) true host)
  else mret host.

(** [InstaRecon.dns_scan_on_host]. *)
Definition dns_scan_on_host (host : Host) : M W Host :=
  print "";;
  print ("# _________________ DNS lookups on " ++ str_Host host
         ++ " _________________ #");;
  s ← get;
  host ← enter DnsLookups (dns_lookups (lookup s) host);
  when (truthy_opt (domain host)) (print "";; print_listing (print_dns_only host));;
  mret host.

(** The body of the loop of [scan_targets] for one target; the scan
    methods update the object in place, so the updated object replaces
    it at its position.  When a scan raises, the object in the set stays
    here as it was before that scan: what the lookups that had returned
    by then wrote into it is not kept.  Nothing reads the set after
    that, the exception ends the [try] block of the top level; what was
    printed until then is on the trace. *)
Definition scan_target (target : Target) : M W Target :=
  match target with
  | THost h =>
      s ← get;
      h' ← (if dns_only (self s) then dns_scan_on_host h else full_scan_on_host h);
      mret (THost h')
  | TNetwork n =>
      n' ← reverse_dns_on_network n;
      mret (TNetwork n')
  end.

Definition store (i : nat) (t : Target) : M W unit :=
  s ← get;
  set_self (mkInstaRecon (dns_only (self s)) (<[i := t]> (targets (self s)))
                         (bad_targets (self s))).

Fixpoint scan_from (i : nat) (todo : list Target) : M W unit :=
  match todo with
  | [] => mret ()
  | target :: rest =>
      target' ← scan_target target;
      store i target';;
      scan_from (S i) rest
  end.

(** [InstaRecon.scan_targets]. *)
Definition scan_targets : M W unit :=
  s ← get;
  scan_from 0 (targets (self s)).

(** The rows collected by [write_output_csv]: for each target the rows
    its generator yields, then the separator row. *)
Definition output_as_lines (ts : list Target) : list row :=
  ts ≫= (λ host, (print_as_csv_lines host ++ [[newline]])%list).

Definition prompt (msg : string) : M W string :=
  emit (Prompt msg);; call (raw_input msg).

(** What one pass through the [with open] block leaves on disk. *)
Definition after_write (filename : string) (lines : list row)
    (o : write_outcome) (fs : gmap string (list row)) : gmap string (list row) :=
  match o with
  | Written => <[filename := lines]> fs
  | Broke _ None => fs
  | Broke _ (Some k) | BrokeOnExit _ k => <[filename := take k lines]> fs
  end.

(** The value of [output_written] after a pass, and the exception the
    pass raised, if any. *)
Definition output_written (o : write_outcome) : bool :=
  match o with Broke _ _ => false | _ => true end.

Definition raised (o : write_outcome) : option exn :=
  match o with
  | Written => None
  | Broke e _ | BrokeOnExit e _ => Some e
  end.

Definition try_write (filename : string) (lines : list row) : M W write_outcome :=
  emit (OpenFile filename);;
  s ← get;
  o ← call (λ w, let '(o, w') := open_and_write filename lines w in (Ok o, w'));
  set_files (after_write filename lines o (files s));;
  mret o.

Definition confirm_exit (answer : string) : bool :=
  bool_decide (answer ∈ ["y"; "Y"; ""]).

(** The loop [while not output_written].  [fuel] bounds the number of
    passes; [None] means the bound was reached with the loop still
    running.  After a pass and its handler the loop tests the flag:
    [again] ends the loop when the flag is set and goes through the
    next pass otherwise. *)
Fixpoint write_loop (fuel : nat) (filename : string) (lines : list row)
    (s : state W) : option (result unit * state W) :=
  match fuel with
  | O => None
  | S fuel' =>
      match try_write filename lines s with
      | (Raise e, s1) => Some (Raise e, s1)
      | (Ok o, s1) =>
          let again s2 :=
            if output_written o then Some (Ok (), s2)
            else write_loop fuel' filename lines s2 in
          match raised o with
          | None => again s1
          | Some e =>
              if is_Exception e then
                let error := "[-] Something went wrong, can't open output file. Press anything to try again."
                             ++ newline ++ "Error: " ++ str_exn e in
                match prompt error s1 with
                | (Raise e', s2) => Some (Raise e', s2)
                | (Ok _, s2) => again s2
                end
              else if bool_decide (e = KeyboardInterrupt) then
                match prompt "[-] Sure you want to exit without saving your file (Y/n)?" s1 with
                | (Raise e', s2) => Some (Raise e', s2)
                | (Ok answer, s2) =>
                    if confirm_exit answer
                    then Some (Raise (SystemExit "# Scan interrupted"), s2)
                    else again s2
                end
              else Some (Raise e, s1)
          end
      end
  end.

(** [InstaRecon.write_output_csv]. *)
Definition write_output_csv (fuel : nat) (filename : option string)
    (s : state W) : option (result unit * state W) :=
  if truthy_opt filename then
    let filename := expanduser (default "" filename) in
    let '(_, s) := print "# Saving output csv file" s in
    write_loop fuel filename (output_as_lines (targets (self s))) s
  else Some (Ok (), s).

End InstaRecon.

(** ** The [__main__] block *)

(** [sorted(set(args.targets))]: the distinct strings in byte order. *)
Fixpoint insert_sorted (x : string) (l : list string) : list string :=
  match l with
  | [] => [x]
  | y :: l' =>
      match String.compare x y with
      | Lt => x :: l
      | Eq => l
      | Gt => y :: insert_sorted x l'
      end
  end.

Definition sorted_set (l : list string) : list string :=
  foldr insert_sorted [] l.

(** The namespace returned by [parser.parse_args()]. *)
Record Args : Type := mkArgs {
  arg_targets : list string;
  arg_output : option string;
  arg_nameserver : option string;
  arg_shodan_key : option string;
  arg_verbose : bool;
  arg_dns_only : bool
}.

Definition entry_banner : string := "# InstaRecon v0.1 - by Luis Teixeira (teix.co)".
Definition exit_banner : string := "# Done".

(** [src.lookup] as imported, before the constructor writes to it. *)
Definition lookup_default : lookup_module := mkLookup None None None None.

Section Main.
Context {W : Type} `{Collaborators W}.

(** [sys.exit(msg)]. *)
Definition sys_exit {A} (msg : string) : M W A := raise (SystemExit msg).

(** The two [except] clauses of the top level. *)
Definition top_level (r : result unit * state W) : result unit * state W :=
  match r with
  | (Raise KeyboardInterrupt, s) => sys_exit "# Scan interrupted" s
  | (Raise NoNameservers, s) =>
      sys_exit "# Something went wrong. Sure you got internet connection?" s
  | r => r
  end.

(** The statements of the [try] block up to the export. *)
Definition scan_phase (inputs : list string) : M W unit :=
  print entry_banner;;
  populate inputs;;
  scan_targets.

(** The state in which the [try] block of the top level starts: the
    object and the settings of [src.lookup] as [InstaRecon(...)] leaves
    them, nothing printed yet. *)
Definition main_state (args : Args) (w : W) (fs : gmap string (list row)) : state W :=
  let key := if truthy_opt (arg_shodan_key args) then arg_shodan_key args
             else getenv "SHODAN_KEY" in
  let '(scan, lk) := init (arg_nameserver args) None key (arg_verbose args)
                          (arg_dns_only args) lookup_default in
  mkState scan lk w [] fs.

Definition main (fuel : nat) (args : Args) (w : W)
    (fs : gmap string (list row)) : option (result unit * state W) :=
  let inputs := sorted_set (arg_targets args) in
  let key := if truthy_opt (arg_shodan_key args) then arg_shodan_key args
             else getenv "SHODAN_KEY" in
  let '(scan, lk) := init (arg_nameserver args) None key (arg_verbose args)
                          (arg_dns_only args) lookup_default in
  let s0 := mkState scan lk w [] fs in
  match scan_phase inputs s0 with
  | (Raise e, s1) => Some (top_level (Raise e, s1))
  | (Ok _, s1) =>
      match write_output_csv fuel (arg_output args) s1 with
      | None => None
      | Some (Raise e, s2) => Some (top_level (Raise e, s2))
      | Some (Ok _, s2) => Some (print exit_banner s2)
      end
  end.

End Main.

(** ** A scripted environment

    A stand-in for the collaborators, as a unit test would inject it:
    plain decimal IPv4 notation, a handful of DNS names, and a world
    that replays a script of write outcomes and keyboard answers.  It
    only serves to run the program on concrete inputs. *)

Module Fake.

Record world : Type := mkWorld {
  writes : list write_outcome;
  keys : list (result string);
  queries : nat
}.

Definition digit (c : ascii) : option Z :=
  let n := Z.of_nat (nat_of_ascii c) in
  if (48 <=? n) && (n <=? 57) then Some (n - 48) else None.

Fixpoint decimal_go (s : string) (acc : Z) : option Z :=
  match s with
  | EmptyString => Some acc
  | String c rest => d ← digit c; decimal_go rest (10 * acc + d)
  end.

Definition decimal (s : string) : option Z :=
  match s with
  | EmptyString => None
  | _ => if (String.length s <=? 3)%nat then decimal_go s 0 else None
  end.

Fixpoint split_dots (s : string) : list string :=
  match s with
  | EmptyString => [EmptyString]
  | String c rest =>
      if Ascii.eqb c "."%char then EmptyString :: split_dots rest
      else match split_dots rest with
           | piece :: pieces => String c piece :: pieces
           | [] => [String c EmptyString]
           end
  end.

Definition octet (s : string) : option Z :=
  n ← decimal s; if n <=? 255 then Some n else None.

Definition parse_ip (s : string) : option ipa.address :=
  match split_dots s with
  | [a; b; c; d] =>
      a ← octet a; b ← octet b; c ← octet c; d ← octet d;
      Some (ipa.Address ipa.V4 (((a * 256 + b) * 256 + c) * 256 + d))
  | _ => None
  end.

Definition parse_prefix (v : ipa.version) (s : string) : option Z :=
  n ← decimal s; if n <=? ipa.max_prefixlen v then Some n else None.

Definition str_Z (z : Z) : string := NilZero.string_of_uint (N.to_uint (Z.to_N z)).

Definition dotted (n : Z) : string :=
  str_Z (Z.shiftr n 24) ++ "." ++ str_Z (Z.land (Z.shiftr n 16) 255) ++ "."
  ++ str_Z (Z.land (Z.shiftr n 8) 255) ++ "." ++ str_Z (Z.land n 255).

Definition show_address (a : ipa.address) : string := dotted (ipa.ip_int a).

Definition show_network (n : ipa.network) : string :=
  dotted (ipa.network_address n) ++ "/" ++ str_Z (ipa.prefixlen n).

Fixpoint has_backslash (s : string) : bool :=
  match s with
  | EmptyString => false
  | String c rest => Ascii.eqb c "\"%char || has_backslash rest
  end.

(** Text without a backslash decodes to itself; the stand-in knows no
    escape sequence and refuses the rest. *)
Definition decode (s : string) : result string :=
  if has_backslash s then Raise ValueError else Ok s.

(** The zone: one name that resolves, one that resolves only the first
    time it is asked, one malformed name, one for which no nameserver
    answers, one whose query times out, one more that resolves (the
    scan of its Host is interrupted, see [lookups]); every other name
    does not exist. *)
Definition zone (_ : lookup_module) (name : string) (w : world)
    : result (list string) * world :=
  let w' := mkWorld (writes w) (keys w) (S (queries w)) in
  if String.eqb name "example.com" then (Ok ["93.184.216.34"], w')
  else if String.eqb name "flaky.example" then
    (if (queries w =? 0)%nat then Ok ["192.0.2.7"] else Raise NXDOMAIN, w')
  else if String.eqb name "bad..name" then (Raise DNSSyntaxError, w')
  else if String.eqb name "unreachable.example" then (Raise NoNameservers, w')
  else if String.eqb name "slow.example" then (Raise Timeout, w')
  else if String.eqb name "interrupted.example" then (Ok ["192.0.2.9"], w')
  else (Raise NXDOMAIN, w').

Definition same {A} (_ : lookup_module) (x : A) (w : world) : result A * world :=
  (Ok x, w).

(** The lookups of a scan: they leave the Host as it is, but for the one
    Host during whose first lookups the user presses Ctrl-C. *)
Definition lookups (_ : lookup_module) (h : Host) (w : world) : result Host * world :=
  if bool_decide (domain h = Some "interrupted.example")
  then (Raise KeyboardInterrupt, w)
  else (Ok h, w).

Definition replay_write (_ : string) (_ : list row) (w : world)
    : write_outcome * world :=
  match writes w with
  | [] => (Written, w)
  | o :: rest => (o, mkWorld rest (keys w) (queries w))
  end.

Definition replay_key (_ : string) (w : world) : result string * world :=
  match keys w with
  | [] => (Ok "", w)
  | k :: rest => (k, mkWorld (writes w) rest (queries w))
  end.

Definition show_host (h : Host) : string :=
  match domain h with
  | Some d => d
  | None => String.concat ", " (ip <$> ips h)
  end.

Definition csv_rows (t : Target) : list row :=
  match t with
  | THost h => [default "" (domain h); "host"] :: ((λ i, [ip i]) <$> ips h)
  | TNetwork n => (λ c, [show_network c]) <$> net_cidrs n
  end.

#[global] Instance collaborators : Collaborators world := {|
  unicode_escape := decode;
  ip_from_text := parse_ip;
  prefix_from_text := parse_prefix;
  str_address := show_address;
  str_network := show_network;
  dns_query := zone;
  dns_lookups := lookups;
  ns_dns_lookup := same;
  mx_dns_lookup := same;
  get_whois_domain := same;
  get_whois_ip := same;
  get_all_shodan := λ lk _, same lk;
  google_lookups := same;
  host_reverse_lookup_on_related_cidrs := λ lk _, same lk;
  net_reverse_lookup_on_related_cidrs := λ lk _, same lk;
  str_Host := show_host;
  str_Network := λ n, String.concat ", " (show_network <$> net_cidrs n);
  str_IP := ip;
  print_all_ips := λ h, String.concat newline (ip <$> ips h);
  print_all_ns := λ h, String.concat newline (ns h);
  print_all_mx := λ h, String.concat newline (mx h);
  print_whois_ip := λ i, default "" (whois_ip i);
  print_all_shodan := λ h, String.concat newline ((λ i, default "" (shodan i)) <$> ips h);
  print_subdomains := λ h, String.concat newline (subdomains h);
  print_dns_only := λ h, default "" (domain h) ++ " - " ++ String.concat ", " (ip <$> ips h);
  print_as_csv_lines := csv_rows;
  expanduser := λ p, p;
  getenv := λ _, None;
  open_and_write := replay_write;
  raw_input := replay_key
|}.

Definition quiet : world := mkWorld [] [] 0.

(** A fresh orchestrator over the given world. *)
Definition fresh (dns_only_flag : bool) (key : option string) (w : world) : state world :=
  mkState (mkInstaRecon dns_only_flag [] ∅)
          (mkLookup None None None key) w [] ∅.

End Fake.


(** ** Vocabulary of the statements *)

Section Vocabulary.
Context {W : Type} `{Collaborators W}.

(** The value of the expression guarded by the first and by the second
    [try] of [add_host]. *)
Definition as_ip (raw : string) : result ipa.address :=
  match unicode_escape raw with
  | Ok text => ipa.ip_address ip_from_text text
  | Raise e => Raise e
  end.

Definition as_cidr (raw : string) : result ipa.network :=
  match unicode_escape raw with
  | Ok text => ipa.ip_network ip_from_text prefix_from_text text false
  | Raise e => Raise e
  end.

(** State transformers used to write down what a call leaves behind. *)
Definition logged (evs : list event) (s : state W) : state W :=
  mkState (self s) (lookup s) (world s) (trace s ++ evs) (files s).

Definition with_target (t : Target) (s : state W) : state W :=
  mkState (mkInstaRecon (dns_only (self s)) (set_add t (targets (self s)))
                        (bad_targets (self s)))
          (lookup s) (world s) (trace s) (files s).

Definition with_bad_target (raw : string) (s : state W) : state W :=
  mkState (mkInstaRecon (dns_only (self s)) (targets (self s))
                        ({[raw]} ∪ bad_targets (self s)))
          (lookup s) (world s) (trace s) (files s).

Definition in_world (w : W) (s : state W) : state W :=
  mkState (self s) (lookup s) w (trace s) (files s).

Definition unresolved_line (raw : string) : string :=
  "[-] Couldn't resolve or understand - " ++ raw.

Definition three_attempts (raw : string) : list event :=
  [Attempt AsIP raw; Attempt AsCIDR raw; Attempt AsDNS raw].


(** A target that the classification of [raw] can put into the target
    set: the Host of its address, the Network of its CIDR, or a Host
    carrying [raw] as its domain. *)
Definition made_from (raw : string) (t : Target) : Prop :=
  (∃ a, as_ip raw = Ok a ∧ t = THost (new_Host None [str_address a]))
  ∨ (as_ip raw = Raise ValueError
     ∧ ∃ net, as_cidr raw = Ok net ∧ t = TNetwork (new_Network [net]))
  ∨ (as_ip raw = Raise ValueError ∧ as_cidr raw = Raise ValueError
     ∧ ∃ answers, t = THost (new_Host (Some raw) answers)).



End Vocabulary.

(** ** Counting events *)

(** The events of a list, each counted with its weight. *)
Definition weight (μ : event → nat) (evs : list event) : nat :=
  sum_list_with μ evs.

(** The line by which [populate] reports that no Shodan key was given. *)
Definition reports_no_key (e : event) : nat :=
  match e with
  | Stdout line => if String.eqb line "# No Shodan key provided" then 1 else 0
  | _ => 0
  end.

(** Entering the phase [p]. *)
Definition enters (p : phase) (e : event) : nat :=
  match e with
  | Enter q => if decide (q = p) then 1 else 0
  | _ => 0
  end.

(** Entering a phase that the DNS-only mode has no use for: anything but
    the DNS lookups of a Host and the reverse sweep of a Network. *)
Definition enters_beyond_dns (e : event) : nat :=
  match e with
  | Enter DnsLookups | Enter ReverseSweep => 0
  | Enter _ => 1
  | _ => 0
  end.

Section Counting.
Context {W : Type}.

(** The settings that no method of the class assigns after [__init__]. *)
Definition keeps (lk : lookup_module) (d : bool) (s : state W) : Prop :=
  lookup s = lk ∧ dns_only (self s) = d.

(** Run under the settings [lk] and [d], the computation [m] keeps them
    and appends events of total weight at most [k], and exactly [k] when
    it returns normally. *)
Definition counts (lk : lookup_module) (d : bool) (μ : event → nat) (k : nat)
    {A} (m : M W A) : Prop :=
  ∀ s, keeps lk d s →
    keeps lk d (m s).2
    ∧ ∃ evs, trace (m s).2 = (trace s ++ evs)%list
             ∧ (weight μ evs ≤ k)%nat
             ∧ ∀ a, (m s).1 = Ok a → weight μ evs = k.

End Counting.

Section ScanVocabulary.
Context {W : Type} `{Collaborators W}.

(** What [dns_scan_on_host] prints before it looks anything up. *)
Definition dns_scan_header (host : Host) : list event :=
  [Stdout "";
   Stdout ("# _________________ DNS lookups on " ++ str_Host host
           ++ " _________________ #")].

(** The condensed result of the DNS-only mode, printed when the Host has
    a domain after the lookups. *)
Definition dns_only_result (host : Host) : list event :=
  if truthy_opt (domain host) then [Stdout ""; Listing (print_dns_only host)] else [].

(** How many times [populate] reports the missing key: once when it
    returned normally with a target in the set, outside the DNS-only
    mode and without a key. *)
Definition no_key_reports (r : result unit) (s : state W) : nat :=
  match r with
  | Ok _ =>
      if nonempty (targets (self s)) && negb (dns_only (self s))
         && negb (truthy_opt (shodan_key (lookup s)))
      then 1 else 0
  | Raise _ => 0
  end.

End ScanVocabulary.

Section ExportVocabulary.
Context {W : Type} `{Collaborators W}.

(** The two prompts of the retry loop. *)
Definition retry_prompt (e : exn) : string :=
  "[-] Something went wrong, can't open output file. Press anything to try again."
  ++ newline ++ "Error: " ++ str_exn e.

Definition exit_prompt : string :=
  "[-] Sure you want to exit without saving your file (Y/n)?".

(** [retries filename lines k s s']: started in [s], the loop goes
    through [k] passes that break inside the [with] block, before the
    flag is set, and are taken up again (an exception answered at the
    prompt, or an interrupt answered with anything but [y], [Y] and the
    empty string) and then through one that writes, which leaves [s']. *)
Inductive retries (filename : string) (lines : list row)
    : nat → state W → state W → Prop :=
| retries_written s s' :
    try_write filename lines s = (Ok Written, s') →
    retries filename lines 0 s s'
| retries_after_error k s s1 s2 s' e partial answer :
    try_write filename lines s = (Ok (Broke e partial), s1) →
    is_Exception e = true →
    prompt (retry_prompt e) s1 = (Ok answer, s2) →
    retries filename lines k s2 s' →
    retries filename lines (S k) s s'
| retries_after_declined_interrupt k s s1 s2 s' partial answer :
    try_write filename lines s = (Ok (Broke KeyboardInterrupt partial), s1) →
    prompt exit_prompt s1 = (Ok answer, s2) →
    answer ≠ "y" → answer ≠ "Y" → answer ≠ "" →
    retries filename lines k s2 s' →
    retries filename lines (S k) s s'.

End ExportVocabulary.

(** ** The order of the lookup phases *)

(** The phases entered, in the order in which they were entered. *)
Definition phases (evs : list event) : list phase :=
  omap (λ e, match e with Enter p => Some p | _ => None end) evs.

(** The phases of a full scan in the order of the source text. *)
Definition full_scan_schedule : list phase :=
  [DnsLookups; NsLookup; MxLookup; WhoisDomain; WhoisIP;
   Shodan; GoogleLookups; ReverseSweep].

(** The phases that [m] enters are entered in the order of [schedule],
    each at most as often as it is listed there. *)
Definition follows {W A} (schedule : list phase) (m : M W A) : Prop :=
  ∀ s, ∃ evs, trace (m s).2 = (trace s ++ evs)%list
              ∧ phases evs `sublist_of` schedule.

(** ** What a computation leaves alone *)

(** The part [f] of the state is the same after [m] as before it,
    whether [m] returns or raises. *)
Definition preserves {W A X} (f : state W → X) (m : M W A) : Prop :=
  ∀ s, f (m s).2 = f s.

(** [type(target) is Host]. *)
Definition is_Host (t : Target) : bool :=
  match t with THost _ => true | TNetwork _ => false end.

Definition is_Network (t : Target) : bool :=
  match t with TNetwork _ => true | THost _ => false end.

(** A Host for which a domain is known: [host.domain] is truthy. *)
Definition has_domain (t : Target) : bool :=
  match t with THost h => truthy_opt (domain h) | TNetwork _ => false end.

(** How many targets of a list pass a test. *)
Definition number_of (P : Target → bool) (ts : list Target) : nat :=
  length (List.filter P ts).

(** A text that a method of a target returned and the script printed as
    it was: in the DNS-only mode, the condensed result line. *)
Definition listing (e : event) : nat :=
  match e with Listing _ => 1 | _ => 0 end.

(** Attempts at the output file, and prompts on the console. *)
Definition opens_file (e : event) : nat :=
  match e with OpenFile _ => 1 | _ => 0 end.

Definition prompts (e : event) : nat :=
  match e with Prompt _ => 1 | _ => 0 end.

(** Opens and prompts that alternate, an open first: what a run of the
    retry loop adds to the trace. *)
Definition alternating (evs : list event) : Prop :=
  (1 ≤ weight opens_file evs)%nat
  ∧ (weight prompts evs ≤ weight opens_file evs)%nat
  ∧ (weight opens_file evs ≤ S (weight prompts evs))%nat.

(** Events of the export: a prompt on the console or an attempt at the
    output file. *)
Definition of_export (e : event) : bool :=
  match e with Prompt _ | OpenFile _ => true | _ => false end.
(** * Properties *)

Local Open Scope list_scope.

(** ** Host bits of a network built without [strict] *)

Lemma ALL_ONES_ones (v : ipa.version) : ipa.ALL_ONES v = Z.ones (ipa.max_prefixlen v).
Proof. unfold ipa.ALL_ONES. rewrite Z.ones_equiv. lia. Qed.

Lemma max_prefixlen_pos (v : ipa.version) : 0 < ipa.max_prefixlen v.
Proof. destruct v; simpl; lia. Qed.

(** A netmask has no bit in common with the host mask of its prefix. *)
Lemma netmask_hostmask_disjoint (v : ipa.version) (p : Z) :
  0 <= p →
  Z.land (ipa.ip_int_from_prefix v p)
         (Z.lxor (ipa.ip_int_from_prefix v p) (ipa.ALL_ONES v)) = 0.
Proof.
  intros Hp. unfold ipa.ip_int_from_prefix. rewrite ALL_ONES_ones.
  pose proof (max_prefixlen_pos v) as Hm.
  apply Z.bits_inj'. intros i Hi.
  rewrite Z.land_spec, !Z.lxor_spec, Z.shiftr_spec, Z.bits_0 by lia.
  destruct (Z.lt_ge_cases i (ipa.max_prefixlen v)) as [Hlt | Hge].
  - rewrite (Z.ones_spec_low _ i) by lia.
    destruct (Z.testbit (Z.ones (ipa.max_prefixlen v)) (i + p)); reflexivity.
  - rewrite (Z.ones_spec_high _ i), (Z.ones_spec_high _ (i + p)) by lia.
    reflexivity.
Qed.

Lemma masked_host_bits (a : ipa.address) (p : Z) :
  0 <= p →
  Z.land (ipa.network_address (ipa.masked a p)) (ipa.hostmask (ipa.masked a p)) = 0.
Proof.
  intros Hp. unfold ipa.hostmask, ipa.netmask, ipa.masked; simpl.
  rewrite <- Z.land_assoc, netmask_hostmask_disjoint by assumption.
  apply Z.land_0_r.
Qed.

(** The netmask of a prefix keeps the leading [p] of the version's bits
    and clears everything else: and-ing with it is truncating to the
    version's width and zeroing the low [max_prefixlen - p] bits. *)
Lemma land_netmask_clears_low (v : ipa.version) (x p : Z) :
  0 <= p <= ipa.max_prefixlen v →
  Z.land x (ipa.ip_int_from_prefix v p)
  = Z.shiftl (Z.shiftr (Z.land x (Z.ones (ipa.max_prefixlen v)))
                       (ipa.max_prefixlen v - p))
             (ipa.max_prefixlen v - p).
Proof.
  intros Hp. unfold ipa.ip_int_from_prefix. rewrite ALL_ONES_ones.
  set (m := ipa.max_prefixlen v) in *.
  apply Z.bits_inj'. intros i Hi.
  rewrite Z.land_spec, Z.lxor_spec, Z.shiftr_spec by lia.
  destruct (Z.lt_ge_cases i (m - p)) as [Hlow | Hhigh].
  - rewrite Z.shiftl_spec_low by lia.
    rewrite (Z.ones_spec_low m i), (Z.ones_spec_low m (i + p)) by lia.
    apply andb_false_r.
  - rewrite Z.shiftl_spec_high, Z.shiftr_spec, Z.land_spec by lia.
    replace (i - (m - p) + (m - p)) with i by lia.
    destruct (Z.lt_ge_cases i m) as [Hlt | Hge].
    + rewrite (Z.ones_spec_low m i), (Z.ones_spec_high m (i + p)) by lia. reflexivity.
    + rewrite (Z.ones_spec_high m i), (Z.ones_spec_high m (i + p)) by lia. reflexivity.
Qed.

Lemma network_from_text_prefix pi pp text a p :
  ipa.network_from_text pi pp text = Some (a, p) →
  0 <= p <= ipa.max_prefixlen (ipa.version_of a).
Proof.
  unfold ipa.network_from_text.
  destruct (ipa.split_optional_netmask text) as [[addr_text mask_text]|]; [|discriminate].
  destruct (pi addr_text) as [a'|]; [|discriminate].
  destruct (match mask_text with Some m => pp (ipa.version_of a') m | None => _ end)
    as [p'|]; [|discriminate].
  destruct (0 <=? p') eqn:H0; destruct (p' <=? ipa.max_prefixlen (ipa.version_of a')) eqn:H1;
    simpl; try discriminate.
  intros [= <- <-]. lia.
Qed.

(** Without [strict] every well-formed network text is accepted, and the
    result is the masked network. *)
Lemma ip_network_nonstrict pi pp text a p :
  ipa.network_from_text pi pp text = Some (a, p) →
  ipa.ip_network pi pp text false = Ok (ipa.masked a p).
Proof. intros Hn. unfold ipa.ip_network. rewrite Hn. reflexivity. Qed.

(** ** Adding to a set kept as a list *)

Lemma elem_of_set_add (t' t : Target) (ts : list Target) :
  t' ∈ set_add t ts ↔ t' = t ∨ t' ∈ ts.
Proof.
  unfold set_add. destruct (decide (t ∈ ts)) as [Hin|Hnin].
  - split; [by right|]. intros [-> | ?]; done.
  - rewrite elem_of_app, list_elem_of_singleton. tauto.
Qed.

Lemma set_add_NoDup (t : Target) (ts : list Target) :
  NoDup ts → NoDup (set_add t ts).
Proof.
  intros Hnd. unfold set_add. destruct (decide (t ∈ ts)) as [Hin|Hnin]; [done|].
  apply NoDup_app. split; [done|]. split; [|apply NoDup_singleton].
  intros x Hx Hx'. apply list_elem_of_singleton in Hx'. by subst.
Qed.

Lemma set_add_length (t : Target) (ts : list Target) :
  (length (set_add t ts) ≤ S (length ts))%nat.
Proof.
  unfold set_add. destruct (decide (t ∈ ts)); [lia|].
  rewrite length_app; simpl. lia.
Qed.

(** ** The classifier *)

Section Classifier.
Context {W : Type} `{Collaborators W}.

Ltac run_add_host :=
  unfold add_host, try_except, targets_add, bad_targets_add, print, emit, lift,
    call, get, set_self, mbind, M_bind, mret, M_ret; simpl.

Lemma add_host_ip raw a (s : state W) :
  as_ip raw = Ok a →
  add_host raw s =
    (Ok (), logged [Attempt AsIP raw]
              (with_target (THost (new_Host None [str_address a])) s)).
Proof.
  unfold as_ip. intros Hip. run_add_host.
  destruct (unicode_escape raw) as [text|e]; [|discriminate]. simpl.
  rewrite Hip. reflexivity.
Qed.

Lemma add_host_ip_raises raw e (s : state W) :
  as_ip raw = Raise e → e ≠ ValueError →
  add_host raw s = (Raise e, logged [Attempt AsIP raw] s).
Proof.
  unfold as_ip. intros Hip Hne. run_add_host.
  assert (is_ValueError e = false) as Hv
    by (unfold is_ValueError; rewrite bool_decide_eq_false; exact Hne).
  destruct (unicode_escape raw) as [text|e']; simpl.
  - rewrite Hip. simpl. rewrite Hv. reflexivity.
  - injection Hip as ->. rewrite Hv. reflexivity.
Qed.

Lemma first_try_falls_through raw (s : state W) :
  as_ip raw = Raise ValueError →
  try_except
    (emit (Attempt AsIP raw);;
     text ← lift (unicode_escape raw);
     a ← lift (ipa.ip_address ip_from_text text);
     targets_add (THost (new_Host None [str_address a]));;
     mret true)
    is_ValueError (λ _, mret false) s
  = (Ok false, logged [Attempt AsIP raw] s).
Proof.
  unfold as_ip. intros Hip. run_add_host.
  destruct (unicode_escape raw) as [text|e']; simpl.
  - rewrite Hip. reflexivity.
  - injection Hip as ->. reflexivity.
Qed.

Lemma add_host_cidr raw net (s : state W) :
  as_ip raw = Raise ValueError → as_cidr raw = Ok net →
  add_host raw s =
    (Ok (), logged [Attempt AsIP raw; Attempt AsCIDR raw]
              (with_target (TNetwork (new_Network [net])) s)).
Proof.
  intros Hip Hnet. unfold add_host.
  unfold mbind at 1, M_bind at 1. rewrite first_try_falls_through by assumption.
  revert Hnet. unfold as_cidr. run_add_host.
  destruct (unicode_escape raw) as [text|e]; [|discriminate]. simpl.
  intros ->. unfold logged, with_target; simpl. rewrite <- app_assoc. reflexivity.
Qed.

Lemma second_try_falls_through raw (s : state W) :
  as_cidr raw = Raise ValueError →
  try_except
    (emit (Attempt AsCIDR raw);;
     text ← lift (unicode_escape raw);
     net ← lift (ipa.ip_network ip_from_text prefix_from_text text false);
     targets_add (TNetwork (new_Network [net]));;
     mret true)
    is_ValueError (λ _, mret false) s
  = (Ok false, logged [Attempt AsCIDR raw] s).
Proof.
  unfold as_cidr. intros Hnet. run_add_host.
  destruct (unicode_escape raw) as [text|e']; simpl.
  - rewrite Hnet. reflexivity.
  - injection Hnet as ->. reflexivity.
Qed.

Lemma add_host_cidr_raises raw e (s : state W) :
  as_ip raw = Raise ValueError → as_cidr raw = Raise e → e ≠ ValueError →
  add_host raw s = (Raise e, logged [Attempt AsIP raw; Attempt AsCIDR raw] s).
Proof.
  intros Hip Hnet Hne. unfold add_host.
  unfold mbind at 1, M_bind at 1. rewrite first_try_falls_through by assumption.
  assert (is_ValueError e = false) as Hv
    by (unfold is_ValueError; rewrite bool_decide_eq_false; exact Hne).
  revert Hnet. unfold as_cidr. run_add_host.
  destruct (unicode_escape raw) as [text|e']; simpl.
  - intros ->. simpl. rewrite Hv. unfold logged; simpl. rewrite <- app_assoc. reflexivity.
  - intros [= ->]. rewrite Hv. unfold logged; simpl. rewrite <- app_assoc. reflexivity.
Qed.

(** Both parses failed: the state in which the DNS query is made. *)
Lemma add_host_reaches_dns raw (s : state W) :
  as_ip raw = Raise ValueError → as_cidr raw = Raise ValueError →
  add_host raw s =
    (returned ← try_except
       (emit (Attempt AsDNS raw);;
        s ← get;
        answers ← call (dns_query (lookup s) raw);
        targets_add (THost (new_Host (Some raw) answers));;
        mret true)
       is_NXDOMAIN_or_SyntaxError
       (λ _, print (unresolved_line raw);; mret false);
     if returned : bool then mret () else bad_targets_add raw)
    (logged [Attempt AsIP raw; Attempt AsCIDR raw] s).
Proof.
  intros Hip Hnet. unfold add_host.
  unfold mbind at 1, M_bind at 1. rewrite first_try_falls_through by assumption.
  simpl. unfold mbind at 1, M_bind at 1.
  rewrite second_try_falls_through by assumption.
  unfold logged; simpl. rewrite <- app_assoc. reflexivity.
Qed.

Lemma add_host_dns raw answers w' (s : state W) :
  as_ip raw = Raise ValueError → as_cidr raw = Raise ValueError →
  dns_query (lookup s) raw (world s) = (Ok answers, w') →
  add_host raw s =
    (Ok (), logged (three_attempts raw)
              (in_world w' (with_target (THost (new_Host (Some raw) answers)) s))).
Proof.
  intros Hip Hnet Hq. rewrite add_host_reaches_dns by assumption.
  run_add_host. rewrite Hq. simpl. rewrite <- app_assoc. reflexivity.
Qed.

Lemma add_host_unresolved raw e w' (s : state W) :
  as_ip raw = Raise ValueError → as_cidr raw = Raise ValueError →
  dns_query (lookup s) raw (world s) = (Raise e, w') →
  e = NXDOMAIN ∨ e = DNSSyntaxError →
  add_host raw s =
    (Ok (), logged (three_attempts raw ++ [Stdout (unresolved_line raw)])
              (in_world w' (with_bad_target raw s))).
Proof.
  intros Hip Hnet Hq He. rewrite add_host_reaches_dns by assumption.
  run_add_host. rewrite Hq. simpl.
  assert (is_NXDOMAIN_or_SyntaxError e = true) as ->
    by (destruct He; subst e; reflexivity).
  simpl. rewrite <- !app_assoc. reflexivity.
Qed.

Lemma add_host_dns_raises raw e w' (s : state W) :
  as_ip raw = Raise ValueError → as_cidr raw = Raise ValueError →
  dns_query (lookup s) raw (world s) = (Raise e, w') →
  e ≠ NXDOMAIN → e ≠ DNSSyntaxError →
  add_host raw s = (Raise e, logged (three_attempts raw) (in_world w' s)).
Proof.
  intros Hip Hnet Hq Hn Hs. rewrite add_host_reaches_dns by assumption.
  run_add_host. rewrite Hq. simpl.
  assert (is_NXDOMAIN_or_SyntaxError e = false) as ->.
  { unfold is_NXDOMAIN_or_SyntaxError.
    rewrite (bool_decide_eq_false_2 _ Hn), (bool_decide_eq_false_2 _ Hs). reflexivity. }
  rewrite <- !app_assoc. reflexivity.
Qed.


(** C2.  A raw string that is no single IP address but denotes a network
    (an address, optionally a slash and a prefix length [p] in range) is
    stored as a Network target holding one CIDR and no sweep result.
    That CIDR has the address's version and the prefix length [p], and
    its network address is the given address with the low
    [max_prefixlen - p] bits cleared and the leading [p] bits kept,
    whatever the host bits of the input were; it is the address and-ed
    with the netmask and has no bit of its host mask set.  The call
    returns normally, queries nothing and leaves the unresolved set
    alone. *)
Theorem add_host_masks_host_bits (raw text : string) (a : ipa.address) (p : Z)
    (s : state W) :
  as_ip raw = Raise ValueError →
  unicode_escape raw = Ok text →
  ipa.network_from_text ip_from_text prefix_from_text text = Some (a, p) →
  let m := ipa.max_prefixlen (ipa.version_of a) in
  let n := ipa.Network (ipa.version_of a)
             (Z.shiftl (Z.shiftr (Z.land (ipa.ip_int a) (Z.ones m)) (m - p)) (m - p)) p in
  let t := TNetwork (mkNetwork [n] []) in
  (add_host raw s).1 = Ok ()
  ∧ t ∈ targets (self (add_host raw s).2)
  ∧ targets (self (add_host raw s).2)
    = (if decide (t ∈ targets (self s)) then targets (self s)
       else targets (self s) ++ [t])
  ∧ (∀ i, 0 <= i < m - p → Z.testbit (ipa.network_address n) i = false)
  ∧ (∀ i, m - p <= i < m →
       Z.testbit (ipa.network_address n) i = Z.testbit (ipa.ip_int a) i)
  ∧ ipa.network_address n = Z.land (ipa.ip_int a) (ipa.netmask n)
  ∧ Z.land (ipa.network_address n) (ipa.hostmask n) = 0
  ∧ bad_targets (self (add_host raw s).2) = bad_targets (self s)
  ∧ world (add_host raw s).2 = world s
  ∧ trace (add_host raw s).2 = trace s ++ [Attempt AsIP raw; Attempt AsCIDR raw].
Proof.
  intros Hip Htext Hn m n t.
  pose proof (network_from_text_prefix _ _ _ _ _ Hn) as Hp. fold m in Hp.
  assert (Hmasked : ipa.masked a p = n).
  { unfold ipa.masked, n, m. by rewrite land_netmask_clears_low. }
  assert (Hnet : as_cidr raw = Ok n).
  { unfold as_cidr. rewrite Htext, <- Hmasked. by apply ip_network_nonstrict. }
  assert (Hlow : ∀ i, 0 <= i < m - p → Z.testbit (ipa.network_address n) i = false).
  { intros i Hi. unfold n, ipa.network_address. apply Z.shiftl_spec_low. lia. }
  assert (Hhigh : ∀ i, m - p <= i < m →
            Z.testbit (ipa.network_address n) i = Z.testbit (ipa.ip_int a) i).
  { intros i Hi. unfold n, ipa.network_address.
    rewrite Z.shiftl_spec_high, Z.shiftr_spec, Z.land_spec by lia.
    replace (i - (m - p) + (m - p)) with i by lia.
    rewrite (Z.ones_spec_low m i) by lia. apply andb_true_r. }
  assert (Hland : ipa.network_address n = Z.land (ipa.ip_int a) (ipa.netmask n)).
  { rewrite <- Hmasked. reflexivity. }
  assert (Hhost : Z.land (ipa.network_address n) (ipa.hostmask n) = 0).
  { rewrite <- Hmasked. apply masked_host_bits. lia. }
  rewrite (add_host_cidr raw n s Hip Hnet).
  split; [done|]. split; [apply elem_of_set_add; by left|]. split; [done|].
  split; [exact Hlow|]. split; [exact Hhigh|]. split; [exact Hland|].
  split; [exact Hhost|]. done.
Qed.

(** A loop stops at the first iteration that raises. *)
Lemma for_each_stops {A} (pre rest : list A) (x : A) (body : A → M W unit)
    (e : exn) (s s1 s2 : state W) :
  for_each pre body s = (Ok (), s1) → body x s1 = (Raise e, s2) →
  for_each (pre ++ x :: rest) body s = (Raise e, s2).
Proof.
  revert s. induction pre as [|y pre IH]; intros s Hpre Hx.
  - simpl in Hpre. injection Hpre as <-. simpl.
    unfold mbind, M_bind. rewrite Hx. reflexivity.
  - revert Hpre. simpl. unfold mbind, M_bind.
    destruct (body y s) as [[[]|e'] s']; [|discriminate].
    intros Hpre. by apply IH.
Qed.

Lemma scan_phase_populate_raises (inputs : list string) (e : exn) (s0 s' : state W) :
  populate inputs (logged [Stdout entry_banner] s0) = (Raise e, s') →
  scan_phase inputs s0 = (Raise e, s').
Proof.
  intros Hpop. unfold scan_phase.
  unfold mbind at 1, M_bind at 1.
  change (print entry_banner s0) with (Ok (), logged [Stdout entry_banner] s0).
  cbv beta iota.
  unfold mbind at 1, M_bind at 1. rewrite Hpop. reflexivity.
Qed.

Lemma main_scan_phase_raises (fuel : nat) (args : Args) (w : W)
    (fs : gmap string (list row)) (e : exn) (s' : state W) :
  scan_phase (sorted_set (arg_targets args)) (main_state args w fs) = (Raise e, s') →
  main fuel args w fs = Some (top_level (Raise e, s')).
Proof.
  unfold main, main_state.
  destruct (init _ _ _ _ _ _) as [scan lk]. intros ->. reflexivity.
Qed.

(** C5.  A DNS query that raises anything but [NXDOMAIN] and
    [dns.exception.SyntaxError] (for one, [NoNameservers]) is not caught
    by the classifier, wherever in the input list the string stands:
    [add_host] ends with that very exception, having touched neither
    set; [populate] stops there with the same exception, the inputs
    after it are never classified; and the program, whose sorted
    arguments these are, hands the exception to the two [except] clauses
    of the top level: [NoNameservers] becomes the exit with the
    connectivity message, [KeyboardInterrupt] apart every other
    exception leaves the program as it is. *)
Theorem unhandled_errors_propagate (pre rest : list string) (raw : string)
    (e : exn) (w' : W) (s s1 : state W) :
  for_each pre add_host s = (Ok (), s1) →
  as_ip raw = Raise ValueError → as_cidr raw = Raise ValueError →
  dns_query (lookup s1) raw (world s1) = (Raise e, w') →
  e ≠ NXDOMAIN → e ≠ DNSSyntaxError →
  let s2 := mkState (self s1) (lookup s1) w'
              (trace s1 ++ [Attempt AsIP raw; Attempt AsCIDR raw; Attempt AsDNS raw])
              (files s1) in
  add_host raw s1 = (Raise e, s2)
  ∧ populate (pre ++ raw :: rest) s = (Raise e, s2)
  ∧ (∀ fuel args w fs,
       sorted_set (arg_targets args) = pre ++ raw :: rest →
       s = logged [Stdout entry_banner] (main_state args w fs) →
       main fuel args w fs = Some (top_level (Raise e, s2)))
  ∧ (e = NoNameservers →
       top_level (Raise e, s2)
       = (Raise (SystemExit "# Something went wrong. Sure you got internet connection?"),
          s2))
  ∧ (e ≠ NoNameservers → e ≠ KeyboardInterrupt →
       top_level (Raise e, s2) = (Raise e, s2)).
Proof.
  intros Hpre Hip Hnet Hq Hn Hs s2.
  assert (Hadd : add_host raw s1 = (Raise e, s2)).
  { by rewrite (add_host_dns_raises raw e w' s1 Hip Hnet Hq Hn Hs). }
  assert (Hpop : populate (pre ++ raw :: rest) s = (Raise e, s2)).
  { unfold populate. unfold mbind at 1, M_bind at 1.
    by rewrite (for_each_stops pre rest raw add_host e s s1 s2 Hpre Hadd). }
  split; [exact Hadd|]. split; [exact Hpop|]. split; [|split].
  - intros fuel args w fs Hargs ->. apply main_scan_phase_raises.
    rewrite Hargs. by apply scan_phase_populate_raises.
  - intros ->. reflexivity.
  - intros Hnn Hnk. destruct e; try done.
Qed.

(** C6.  When a raw string is no IP address and no network and its DNS
    query raises [NXDOMAIN] or [dns.exception.SyntaxError], [add_host]
    returns normally after printing the line that names the string, the
    string itself joins [bad_targets], and the target set is unchanged. *)
Theorem add_host_unresolved_is_reported (raw : string) (e : exn) (w' : W)
    (s : state W) :
  as_ip raw = Raise ValueError → as_cidr raw = Raise ValueError →
  dns_query (lookup s) raw (world s) = (Raise e, w') →
  e = NXDOMAIN ∨ e = DNSSyntaxError →
  add_host raw s =
    (Ok (), logged (three_attempts raw ++ [Stdout (unresolved_line raw)])
              (in_world w' (with_bad_target raw s)))
  ∧ raw ∈ bad_targets (self (add_host raw s).2)
  ∧ targets (self (add_host raw s).2) = targets (self s).
Proof.
  intros Hip Hnet Hq He.
  rewrite (add_host_unresolved raw e w' s Hip Hnet Hq He). simpl.
  split; [done|]. split; [|done].
  apply elem_of_union; left. by apply elem_of_singleton.
Qed.

End Classifier.

(** ** The classifier on concrete inputs *)


Lemma add_host_masks_host_bits_witness :
  targets (self (add_host "8.8.8.1/24" (Fake.fresh false None Fake.quiet)).2)
    = [TNetwork (mkNetwork [ipa.Network ipa.V4 134744064 24] [])]
  ∧ Fake.show_network (ipa.Network ipa.V4 134744064 24) = "8.8.8.0/24"
  ∧ targets (self (add_host "10.0.0.129/24" (Fake.fresh false None Fake.quiet)).2)
    = [TNetwork (mkNetwork [ipa.Network ipa.V4 167772160 24] [])]
  ∧ Fake.show_network (ipa.Network ipa.V4 167772160 24) = "10.0.0.0/24"
  ∧ trace (add_host "10.0.0.129/24" (Fake.fresh false None Fake.quiet)).2
    = [Attempt AsIP "10.0.0.129/24"; Attempt AsCIDR "10.0.0.129/24"].
Proof.
  destruct (add_host_masks_host_bits "8.8.8.1/24" "8.8.8.1/24"
              (ipa.Address ipa.V4 134744065) 24 (Fake.fresh false None Fake.quiet))
    as (_ & _ & Htargets & _); [vm_compute; reflexivity ..|].
  destruct (add_host_masks_host_bits "10.0.0.129/24" "10.0.0.129/24"
              (ipa.Address ipa.V4 167772289) 24 (Fake.fresh false None Fake.quiet))
    as (_ & _ & Htargets' & _ & _ & _ & _ & _ & _ & Htrace); [vm_compute; reflexivity ..|].
  split; [rewrite Htargets; reflexivity|]. split; [reflexivity|].
  split; [rewrite Htargets'; reflexivity|]. split; [reflexivity|].
  exact Htrace.
Defined.

Lemma unhandled_errors_propagate_witness :
  sorted_set ["zz.invalid"; "unreachable.example"; "8.8.8.8"]
    = ["8.8.8.8"; "unreachable.example"; "zz.invalid"]
  ∧ ∃ s', main 1 (mkArgs ["zz.invalid"; "unreachable.example"; "8.8.8.8"]
                         None None None false false) Fake.quiet ∅
          = Some (Raise (SystemExit "# Something went wrong. Sure you got internet connection?"),
                  s')
        ∧ targets (self s')
          = [THost (mkHost None [mkIP "8.8.8.8" [] None None] [] [] None [] [] None)]
        ∧ bad_targets (self s') = ∅
        ∧ trace s' = [Stdout entry_banner; Attempt AsIP "8.8.8.8";
                      Attempt AsIP "unreachable.example";
                      Attempt AsCIDR "unreachable.example";
                      Attempt AsDNS "unreachable.example"].
Proof.
  split; [vm_compute; reflexivity|].
  set (args := mkArgs ["zz.invalid"; "unreachable.example"; "8.8.8.8"]
                      None None None false false).
  set (s := logged [Stdout entry_banner] (main_state args Fake.quiet ∅)).
  set (s1 := (for_each ["8.8.8.8"] add_host s).2).
  assert (Hpre : for_each ["8.8.8.8"] add_host s = (Ok (), s1))
    by (vm_compute; reflexivity).
  destruct (unhandled_errors_propagate ["8.8.8.8"] ["zz.invalid"] "unreachable.example"
              NoNameservers (Fake.mkWorld [] [] 1) s s1)
    as (_ & _ & Hmain & Hexit & _);
    [exact Hpre | vm_compute; reflexivity .. | discriminate | discriminate |].
  eexists. split.
  - rewrite (Hmain 1%nat args Fake.quiet ∅); [|vm_compute; reflexivity|reflexivity].
    rewrite (Hexit eq_refl). reflexivity.
  - vm_compute. done.
Defined.

Lemma add_host_unresolved_is_reported_witness :
  "nope.invalid" ∈ bad_targets
     (self (add_host "nope.invalid" (Fake.fresh false None Fake.quiet)).2)
  ∧ trace (add_host "nope.invalid" (Fake.fresh false None Fake.quiet)).2
    = three_attempts "nope.invalid"
      ++ [Stdout "[-] Couldn't resolve or understand - nope.invalid"].
Proof.
  destruct (add_host_unresolved_is_reported "nope.invalid" NXDOMAIN
              (Fake.mkWorld [] [] 1) (Fake.fresh false None Fake.quiet))
    as (Heq & Hin & _); [reflexivity..|by left|].
  split; [exact Hin|]. rewrite Heq. reflexivity.
Defined.

(** ** The two sets after [populate] *)

Section Populate.
Context {W : Type} `{Collaborators W}.

(** The three ways in which a call of [add_host] can end. *)
Lemma add_host_step (raw : string) (s : state W) :
  (∃ t, (add_host raw s).1 = Ok () ∧ made_from raw t
        ∧ targets (self (add_host raw s).2) = set_add t (targets (self s))
        ∧ bad_targets (self (add_host raw s).2) = bad_targets (self s))
  ∨ ((add_host raw s).1 = Ok ()
     ∧ as_ip raw = Raise ValueError ∧ as_cidr raw = Raise ValueError
     ∧ targets (self (add_host raw s).2) = targets (self s)
     ∧ bad_targets (self (add_host raw s).2) = {[raw]} ∪ bad_targets (self s))
  ∨ (∃ e, (add_host raw s).1 = Raise e ∧ self (add_host raw s).2 = self s).
Proof.
  destruct (as_ip raw) as [a|e] eqn:Hip.
  { rewrite (add_host_ip raw a s Hip). left. eexists. repeat split.
    left. eauto. }
  destruct (decide (e = ValueError)) as [->|Hne]; last first.
  { rewrite (add_host_ip_raises raw e s Hip Hne). right; right. eauto. }
  destruct (as_cidr raw) as [net|e] eqn:Hnet.
  { rewrite (add_host_cidr raw net s Hip Hnet). left. eexists. repeat split.
    right; left. eauto. }
  destruct (decide (e = ValueError)) as [->|Hne]; last first.
  { rewrite (add_host_cidr_raises raw e s Hip Hnet Hne). right; right. eauto. }
  destruct (dns_query (lookup s) raw (world s)) as [[answers|e] w'] eqn:Hq.
  { rewrite (add_host_dns raw answers w' s Hip Hnet Hq). left. eexists. repeat split.
    right; right. eauto. }
  destruct (decide (e = NXDOMAIN ∨ e = DNSSyntaxError)) as [He|He].
  { rewrite (add_host_unresolved raw e w' s Hip Hnet Hq He). right; left. done. }
  rewrite (add_host_dns_raises raw e w' s Hip Hnet Hq) by tauto.
  right; right. eauto.
Qed.

Lemma for_each_cons {A} (x : A) (l : list A) (body : A → M W unit) (s : state W) :
  for_each (x :: l) body s =
    match body x s with
    | (Ok _, s') => for_each l body s'
    | (Raise e, s') => (Raise e, s')
    end.
Proof. reflexivity. Qed.

(** The report that ends [populate] leaves the object alone. *)
Lemma populate_self (l : list string) (s : state W) :
  self (populate l s).2 = self (for_each l add_host s).2.
Proof.
  unfold populate, mbind, M_bind, get, print, emit, mret, M_ret.
  destruct (for_each l add_host s) as [[[]|e] s1]; simpl; [|done].
  repeat (match goal with |- context [if ?c then _ else _] => destruct c end; simpl);
    done.
Qed.


Lemma for_each_add_host_NoDup (l : list string) (s : state W) :
  NoDup (targets (self s)) → NoDup (targets (self (for_each l add_host s).2)).
Proof.
  revert s. induction l as [|raw l IH]; intros s Hnd; [done|].
  rewrite for_each_cons.
  destruct (add_host_step raw s) as [(t & Hr & _ & Ht & _) | [(Hr & _ & _ & Ht & _) | (e & Hr & Hs)]];
    destruct (add_host raw s) as [r s1]; simpl in *; subst r; simpl.
  - apply IH. rewrite Ht. by apply set_add_NoDup.
  - apply IH. by rewrite Ht.
  - by rewrite Hs.
Qed.






End Populate.

(** ** [sorted(set(...))] *)

Lemma insert_sorted_elem (x y : string) (l : list string) :
  y ∈ insert_sorted x l ↔ y = x ∨ y ∈ l.
Proof.
  induction l as [|z l IH]; simpl.
  - rewrite list_elem_of_singleton. split; [auto|]. intros [?|Hn]; [done|].
    by apply not_elem_of_nil in Hn.
  - destruct (String.compare x z) eqn:Hc.
    + apply OrderedTypeEx.String_as_OT.cmp_eq in Hc as ->.
      split; [auto|]. intros [->|?]; [left|]; done.
    + rewrite (elem_of_cons (z :: l)). tauto.
    + rewrite !elem_of_cons, IH. tauto.
Qed.

Lemma insert_sorted_sorted (x : string) (l : list string) :
  StronglySorted OrderedTypeEx.String_as_OT.lt l →
  StronglySorted OrderedTypeEx.String_as_OT.lt (insert_sorted x l).
Proof.
  induction 1 as [|z l Hs IH Hz]; simpl.
  - repeat constructor.
  - destruct (String.compare x z) eqn:Hc.
    + by constructor.
    + apply OrderedTypeEx.String_as_OT.cmp_lt in Hc.
      constructor; [by constructor|]. constructor; [done|].
      eapply Forall_impl; [exact Hz|]. intros y Hy.
      by eapply OrderedTypeEx.String_as_OT.lt_trans.
    + assert (OrderedTypeEx.String_as_OT.lt z x) as Hzx.
      { apply OrderedTypeEx.String_as_OT.cmp_lt.
        unfold OrderedTypeEx.String_as_OT.cmp.
        rewrite String.compare_antisym, Hc. reflexivity. }
      constructor; [done|]. apply Forall_forall. intros y Hy.
      apply insert_sorted_elem in Hy as [->|Hy]; [done|].
      by eapply (proj1 (Forall_forall _ _) Hz).
Qed.

Lemma sorted_set_sorted (l : list string) :
  StronglySorted OrderedTypeEx.String_as_OT.lt (sorted_set l).
Proof.
  induction l as [|x l IH]; simpl; [constructor|]. by apply insert_sorted_sorted.
Qed.

Lemma sorted_set_elem (l : list string) (x : string) : x ∈ sorted_set l ↔ x ∈ l.
Proof.
  induction l as [|y l IH]; simpl; [done|].
  rewrite insert_sorted_elem, elem_of_cons, IH. done.
Qed.

Lemma sorted_set_NoDup (l : list string) : NoDup (sorted_set l).
Proof.
  pose proof (sorted_set_sorted l) as Hs.
  induction Hs as [|x l' Hs IH Hx]; constructor; [|done].
  intros Hin. apply (proj1 (Forall_forall _ _) Hx) in Hin.
  by apply OrderedTypeEx.String_as_OT.lt_not_eq in Hin.
Qed.

(** ** Repeated and distinct inputs *)

Section TargetSet.
Context {W : Type} `{Collaborators W}.

(** C8.  Classifying the same address twice leaves one Host in the
    target set; whatever the inputs, [populate] never makes the set hold
    two equal targets; and the list that the top level hands to
    [populate] holds every argument once. *)
Theorem repeated_inputs_are_merged :
  (∀ (raw : string) (a : ipa.address) (s : state W),
      as_ip raw = Ok a → targets (self s) = [] →
      targets (self (populate [raw; raw] s).2)
        = [THost (new_Host None [str_address a])])
  ∧ (∀ (l : list string) (s : state W),
        NoDup (targets (self s)) → NoDup (targets (self (populate l s).2)))
  ∧ (∀ args : list string,
        NoDup (sorted_set args) ∧ ∀ x, x ∈ sorted_set args ↔ x ∈ args).
Proof.
  split; [|split].
  - intros raw a s Hip Hempty. rewrite populate_self, for_each_cons.
    rewrite (add_host_ip raw a s Hip). cbv beta iota.
    rewrite for_each_cons, (add_host_ip raw a _ Hip). simpl.
    rewrite Hempty. unfold set_add at 2. simpl.
    unfold set_add. rewrite decide_True; [done|]. by apply list_elem_of_singleton.
  - intros l s Hnd. rewrite populate_self. by apply for_each_add_host_NoDup.
  - intros args. split; [apply sorted_set_NoDup | apply sorted_set_elem].
Qed.


End TargetSet.

Lemma repeated_inputs_are_merged_witness :
  targets (self (populate ["8.8.8.8"; "8.8.8.8"] (Fake.fresh false None Fake.quiet)).2)
    = [THost (new_Host None ["8.8.8.8"])]
  ∧ (λ r, length (targets (self r.2)))
      <$> main 1 (mkArgs ["8.8.8.8"; "8.8.8.8"] None None None false false) Fake.quiet ∅
    = Some 1%nat.
Proof.
  split; [|reflexivity].
  etrans.
  - apply (proj1 repeated_inputs_are_merged "8.8.8.8" (ipa.Address ipa.V4 134744072));
      reflexivity.
  - reflexivity.
Defined.



(** ** Counting the events of a computation *)

Lemma weight_app (μ : event → nat) (evs1 evs2 : list event) :
  weight μ (evs1 ++ evs2) = (weight μ evs1 + weight μ evs2)%nat.
Proof. apply sum_list_with_app. Qed.

Section CountingRules.
Context {W : Type} (lk : lookup_module) (d : bool) (μ : event → nat).

Lemma counts_ret {A} (a : A) : counts (W:=W) lk d μ 0 (mret a).
Proof.
  intros s Hk. split; [done|]. exists []. simpl. by rewrite app_nil_r.
Qed.

Lemma counts_raise {A} (e : exn) : counts (W:=W) (A:=A) lk d μ 0 (raise e).
Proof.
  intros s Hk. split; [done|]. exists []. simpl. by rewrite app_nil_r.
Qed.

Lemma counts_lift {A} (r : result A) : counts (W:=W) lk d μ 0 (lift r).
Proof.
  intros s Hk. split; [done|]. exists []. simpl. by rewrite app_nil_r.
Qed.

Lemma counts_emit (e : event) : counts (W:=W) lk d μ (μ e) (emit e).
Proof.
  intros s Hk. split; [done|]. exists [e]. simpl.
  unfold weight; simpl. split; [done|]. split; [lia|]. intros; lia.
Qed.

Lemma counts_emit0 (e : event) : μ e = 0%nat → counts (W:=W) lk d μ 0 (emit e).
Proof. intros <-. apply counts_emit. Qed.

Lemma counts_call {A} (f : W → result A * W) : counts lk d μ 0 (call f).
Proof.
  intros s Hk. unfold call. destruct (f (world s)) as [r w]. simpl.
  split; [done|]. exists []. by rewrite app_nil_r.
Qed.

Lemma counts_bind {A B} (k1 k2 : nat) (m : M W A) (f : A → M W B) :
  counts lk d μ k1 m → (∀ a, counts lk d μ k2 (f a)) →
  counts lk d μ (k1 + k2) (m ≫= f).
Proof.
  intros Hm Hf s Hk. unfold mbind, M_bind.
  destruct (Hm s Hk) as [Hk1 (evs1 & Ht1 & Hle1 & Heq1)].
  destruct (m s) as [[a|e] s1]; simpl in *.
  - destruct (Hf a s1 Hk1) as [Hk2 (evs2 & Ht2 & Hle2 & Heq2)].
    split; [done|]. exists (evs1 ++ evs2).
    rewrite Ht2, Ht1, app_assoc, weight_app, (Heq1 a eq_refl).
    split; [done|]. split; [lia|]. intros b Hb. by rewrite (Heq2 b Hb).
  - split; [done|]. exists evs1. split; [done|]. split; [lia|]. intros b [=].
Qed.

Lemma counts_bind0 {A B} (k : nat) (m : M W A) (f : A → M W B) :
  counts lk d μ 0 m → (∀ a, counts lk d μ k (f a)) → counts lk d μ k (m ≫= f).
Proof. intros Hm Hf. by apply (counts_bind 0 k). Qed.

Lemma counts_bind_first {A B} (k : nat) (m : M W A) (f : A → M W B) :
  counts lk d μ k m → (∀ a, counts lk d μ 0 (f a)) → counts lk d μ k (m ≫= f).
Proof. intros Hm Hf. rewrite <- (Nat.add_0_r k). by apply counts_bind. Qed.

(** [s ← get; f s]: the continuation sees a state under the settings. *)
Lemma counts_get_bind {B} (k : nat) (f : state W → M W B) :
  (∀ s0, keeps lk d s0 → counts lk d μ k (f s0)) → counts lk d μ k (get ≫= f).
Proof. intros Hf s Hk. exact (Hf s Hk s Hk). Qed.

Lemma counts_ite {A} (k : nat) (c : bool) (m1 m2 : M W A) :
  counts lk d μ k m1 → counts lk d μ k m2 →
  counts lk d μ k (if c then m1 else m2).
Proof. by destruct c. Qed.

Lemma counts_for_each {A} (l : list A) (body : A → M W unit) :
  (∀ x, counts lk d μ 0 (body x)) → counts lk d μ 0 (for_each l body).
Proof.
  intros Hb. induction l as [|x l IH]; simpl.
  - apply counts_ret.
  - apply counts_bind0; [apply Hb | intros _; apply IH].
Qed.

Lemma counts_try_except {A} (body : M W A) (classes : exn → bool)
    (handler : exn → M W A) :
  counts lk d μ 0 body → (∀ e, counts lk d μ 0 (handler e)) →
  counts lk d μ 0 (try_except body classes handler).
Proof.
  intros Hb Hh s Hk. unfold try_except.
  destruct (Hb s Hk) as [Hk1 (evs1 & Ht1 & Hle1 & _)].
  destruct (body s) as [[a|e] s1]; simpl in *.
  - split; [done|]. exists evs1. split; [done|]. split; [done|]. intros; lia.
  - destruct (classes e).
    + destruct (Hh e s1 Hk1) as [Hk2 (evs2 & Ht2 & Hle2 & _)].
      split; [done|]. exists (evs1 ++ evs2).
      rewrite Ht2, Ht1, app_assoc, weight_app.
      split; [done|]. split; [lia|]. intros; lia.
    + split; [done|]. exists evs1. split; [done|]. split; [done|]. intros; lia.
Qed.

(** Assigning the target set or the unresolved set keeps the mode. *)
Lemma counts_set_self (r : InstaRecon) :
  dns_only r = d → counts (W:=W) lk d μ 0 (set_self r).
Proof.
  intros Hd s [Hl _]. split; [done|]. exists []. simpl. by rewrite app_nil_r.
Qed.

Lemma counts_targets_add (t : Target) : counts (W:=W) lk d μ 0 (targets_add t).
Proof.
  apply counts_get_bind. intros s0 [_ Hd]. by apply counts_set_self.
Qed.

Lemma counts_bad_targets_add (raw : string) :
  counts (W:=W) lk d μ 0 (bad_targets_add raw).
Proof.
  apply counts_get_bind. intros s0 [_ Hd]. by apply counts_set_self.
Qed.

Lemma counts_store (i : nat) (t : Target) : counts (W:=W) lk d μ 0 (store i t).
Proof.
  apply counts_get_bind. intros s0 [_ Hd]. by apply counts_set_self.
Qed.

End CountingRules.

(** Events of weight zero throughout: one rule per construct, chosen by
    the shape of the computation. *)
Ltac count_zero :=
  lazymatch goal with
  | |- counts _ _ _ _ (mret _) => apply counts_ret
  | |- counts _ _ _ _ (raise _) => apply counts_raise
  | |- counts _ _ _ _ (lift _) => apply counts_lift
  | |- counts _ _ _ _ (call _) => apply counts_call
  | |- counts _ _ _ _ (targets_add _) => apply counts_targets_add
  | |- counts _ _ _ _ (bad_targets_add _) => apply counts_bad_targets_add
  | |- counts _ _ _ _ (store _ _) => apply counts_store
  | |- counts _ _ _ _ (emit _) => apply counts_emit0; reflexivity
  | |- counts _ _ _ _ (print _) => apply counts_emit0; reflexivity
  | |- counts _ _ _ _ (print_listing _) => apply counts_emit0; reflexivity
  | |- counts _ _ _ _ (enter _ _) => unfold enter; count_zero
  | |- counts _ _ _ _ (prompt _) => unfold prompt; count_zero
  | |- counts _ _ _ _ (when _ _) => unfold when; count_zero
  | |- counts _ _ _ _ (get ≫= _) => apply counts_get_bind; intros ? ?; count_zero
  | |- counts _ _ _ _ (_ ≫= _) => apply counts_bind0; [count_zero | intros ?; count_zero]
  | |- counts _ _ _ _ (if _ then _ else _) => apply counts_ite; count_zero
  | |- counts _ _ _ _ (for_each _ _) => apply counts_for_each; intros ?; count_zero
  | |- counts _ _ _ _ (try_except _ _ _) =>
      apply counts_try_except; [count_zero | intros ?; count_zero]
  | |- counts _ _ _ _ (let _ := _ in _) => cbv zeta; count_zero
  | |- _ => idtac
  end.

(** ** The Shodan key report and the lookup phases *)

Section Orchestrator.
Context {W : Type} `{Collaborators W} (lk : lookup_module) (d : bool).

Lemma add_host_no_report (raw : string) :
  counts lk d reports_no_key 0 (add_host raw).
Proof. unfold add_host. count_zero. Qed.

Lemma dns_scan_no_report (host : Host) :
  counts lk d reports_no_key 0 (dns_scan_on_host host).
Proof. unfold dns_scan_on_host. count_zero. Qed.

Lemma reverse_dns_no_report (network : Network) :
  counts lk d reports_no_key 0 (reverse_dns_on_network network).
Proof. unfold reverse_dns_on_network. count_zero. Qed.

Lemma full_scan_no_report (host : Host) :
  counts lk d reports_no_key 0 (full_scan_on_host host).
Proof. unfold full_scan_on_host. count_zero. Qed.

Lemma scan_target_no_report (target : Target) :
  counts lk d reports_no_key 0 (scan_target target).
Proof.
  destruct target as [h|n]; simpl.
  - apply counts_get_bind; intros s0 _. apply counts_bind0; [|intros ?; apply counts_ret].
    apply counts_ite; [apply dns_scan_no_report | apply full_scan_no_report].
  - apply counts_bind0; [apply reverse_dns_no_report | intros ?; apply counts_ret].
Qed.

Lemma scan_from_counts (μ : event → nat) (i : nat) (todo : list Target) :
  (∀ t, counts lk d μ 0 (scan_target t)) → counts lk d μ 0 (scan_from i todo).
Proof.
  intros Ht. revert i. induction todo as [|t todo IH]; intros i; simpl.
  - apply counts_ret.
  - apply counts_bind0; [apply Ht | intros t'].
    apply counts_bind0; [apply counts_store | intros _; apply IH].
Qed.

Lemma scan_targets_no_report : counts lk d reports_no_key 0 scan_targets.
Proof.
  apply counts_get_bind; intros s0 _.
  apply scan_from_counts, scan_target_no_report.
Qed.

Lemma dns_scan_on_host_run (host : Host) (s : state W) :
  dns_scan_on_host host s =
    match dns_lookups (lookup s) host (world s) with
    | (Ok host', w') =>
        (Ok host', logged (dns_scan_header host ++ [Enter DnsLookups]
                           ++ dns_only_result host') (in_world w' s))
    | (Raise e, w') =>
        (Raise e, logged (dns_scan_header host ++ [Enter DnsLookups]) (in_world w' s))
    end.
Proof.
  unfold dns_scan_on_host, enter, when, print, print_listing, emit, call, get,
    mbind, M_bind, mret, M_ret, logged, in_world, dns_only_result, dns_scan_header.
  simpl. destruct (dns_lookups (lookup s) host (world s)) as [[host'|e] w']; simpl.
  - destruct (truthy_opt (domain host')); simpl; rewrite <- !app_assoc; reflexivity.
  - rewrite <- !app_assoc. reflexivity.
Qed.

Lemma scan_target_beyond_dns (target : Target) :
  d = true → counts lk d enters_beyond_dns 0 (scan_target target).
Proof.
  intros ->. destruct target as [h|n]; simpl.
  - apply counts_get_bind; intros s0 [_ ->].
    unfold dns_scan_on_host. count_zero.
  - unfold reverse_dns_on_network. count_zero.
Qed.

(** Steps over the statements of weight zero that precede the test of
    the Shodan key. *)
Ltac count_prefix :=
  lazymatch goal with
  | |- counts _ _ _ _ (get ≫= _) => apply counts_get_bind; intros ? ?; count_prefix
  | |- counts _ _ _ _ ((if truthy_opt (shodan_key _) then _ else _) ≫= _) => idtac
  | |- counts _ _ _ _ (_ ≫= _) =>
      apply counts_bind0; [solve [count_zero] | intros ?; count_prefix]
  | |- _ => idtac
  end.

(** The Shodan phase of a full scan: entered once when a key is set,
    not at all otherwise. *)
Lemma full_scan_enters_shodan (host : Host) :
  counts lk d (enters Shodan) (if truthy_opt (shodan_key lk) then 1 else 0)
         (full_scan_on_host host).
Proof.
  unfold full_scan_on_host. count_prefix.
  match goal with
  | Hk : keeps _ _ ?s |- context [shodan_key (lookup ?s)] => destruct Hk as [-> _]
  end.
  apply counts_bind_first; [|intros ?; solve [count_zero]].
  destruct (truthy_opt (shodan_key lk)); [|apply counts_ret].
  do 2 (apply counts_bind0; [solve [count_zero] | intros _]).
  apply counts_bind_first; [|intros ?; solve [count_zero]].
  unfold enter. apply counts_bind_first; [|intros _; apply counts_call].
  exact (counts_emit lk d (enters Shodan) (Enter Shodan)).
Qed.

(** The events of [populate]: only its closing report can be the line
    about the key. *)
Lemma populate_reports (l : list string) (s : state W) :
  keeps lk d s →
  ∃ evs, trace (populate l s).2 = trace s ++ evs
         ∧ weight reports_no_key evs = no_key_reports (populate l s).1 (populate l s).2.
Proof.
  intros Hk.
  destruct (counts_for_each lk d reports_no_key l add_host add_host_no_report s Hk)
    as [_ (evs1 & Ht1 & Hle1 & _)].
  unfold populate, mbind, M_bind, get, print, emit, mret, M_ret, no_key_reports.
  destruct (for_each l add_host s) as [[[]|e] s1]; simpl in *.
  - destruct (nonempty (targets (self s1))) eqn:Hn; simpl;
      [destruct (dns_only (self s1)) eqn:Hd; simpl;
       [|destruct (truthy_opt (shodan_key (lookup s1))) eqn:Hkey; simpl]|];
      rewrite ?Hn, ?Hd, ?Hkey; simpl;
      (eexists; rewrite Ht1, <- ?app_assoc; split; [reflexivity|]);
      rewrite weight_app; unfold weight at 2; simpl; lia.
  - exists evs1. split; [done|]. lia.
Qed.

End Orchestrator.

Section Modes.
Context {W : Type} `{Collaborators W}.

(** C9, as amended.  A full scan of a Host enters the Shodan phase at
    most once and only with a key set; a full scan that returns enters
    it exactly once when a key is set and not at all otherwise.  The
    line reporting a missing key is printed by [populate] alone, once,
    and only when it returned with at least one target, outside the
    DNS-only mode and without a key; no scan of a target prints it. *)
Theorem shodan_phase_and_report (s : state W) :
  (∀ host, ∃ evs,
      trace (full_scan_on_host host s).2 = trace s ++ evs
      ∧ (weight (enters Shodan) evs
         ≤ if truthy_opt (shodan_key (lookup s)) then 1 else 0)%nat
      ∧ (∀ host', (full_scan_on_host host s).1 = Ok host' →
           weight (enters Shodan) evs
           = if truthy_opt (shodan_key (lookup s)) then 1%nat else 0%nat)
      ∧ weight reports_no_key evs = 0%nat)
  ∧ (∀ l, ∃ evs,
        trace (populate l s).2 = trace s ++ evs
        ∧ weight reports_no_key evs
          = no_key_reports (populate l s).1 (populate l s).2)
  ∧ (∃ evs, trace (scan_targets s).2 = trace s ++ evs
            ∧ weight reports_no_key evs = 0%nat).
Proof.
  assert (keeps (lookup s) (dns_only (self s)) s) as Hk by done.
  split; [|split].
  - intros host.
    destruct (full_scan_enters_shodan (lookup s) (dns_only (self s)) host s Hk) as [_ (evs & Ht & Hle & Heq)].
    destruct (full_scan_no_report (lookup s) (dns_only (self s)) host s Hk) as [_ (evs' & Ht' & Hle' & _)].
    rewrite Ht in Ht'. apply app_inv_head in Ht' as <-.
    exists evs. repeat split; [done..|lia].
  - intros l. exact (populate_reports (lookup s) (dns_only (self s)) l s Hk).
  - destruct (scan_targets_no_report (lookup s) (dns_only (self s)) s Hk) as [_ (evs & Ht & Hle & _)].
    exists evs. split; [done|lia].
Qed.

End Modes.

Lemma shodan_phase_and_report_witness :
  ∃ evs,
    trace (full_scan_on_host (new_Host None ["8.8.8.8"])
             (Fake.fresh false (Some "KEY") Fake.quiet)).2 = evs
    ∧ weight (enters Shodan) evs = 1%nat
    ∧ weight reports_no_key evs = 0%nat.
Proof.
  destruct (proj1 (shodan_phase_and_report (Fake.fresh false (Some "KEY") Fake.quiet))
              (new_Host None ["8.8.8.8"])) as (evs & Ht & _ & Heq & Hno).
  exists evs. split; [exact Ht|]. split; [|exact Hno].
  apply (Heq (new_Host None ["8.8.8.8"])). reflexivity.
Defined.

(** A full scan with a key configured that the user interrupts during
    the first lookups of the Host: the scan has begun, the Shodan phase
    is never entered.  And a run in full mode without a key in which no
    input resolves, and a run in the DNS-only mode: the missing key is
    reported in neither. *)
Lemma shodan_claim_counterexample :
  (λ r, (r.1, weight (enters Shodan) (trace r.2), trace r.2))
    <$> main 1 (mkArgs ["interrupted.example"] None None (Some "KEY") false false)
          Fake.quiet ∅
  = Some (Raise (SystemExit "# Scan interrupted"), 0%nat,
          [Stdout "# InstaRecon v0.1 - by Luis Teixeira (teix.co)";
           Attempt AsIP "interrupted.example";
           Attempt AsCIDR "interrupted.example";
           Attempt AsDNS "interrupted.example";
           Stdout "# Scanning 1/1 hosts";
           Stdout "# Shodan key provided - KEY";
           Stdout "";
           Stdout "# ____________________ Scanning interrupted.example ____________________ #";
           Stdout "";
           Stdout "# DNS lookups";
           Enter DnsLookups])
  ∧ (λ r, weight reports_no_key (trace r.2))
      <$> main 1 (mkArgs ["nope.invalid"] None None None false false) Fake.quiet ∅
    = Some 0%nat
  ∧ (λ r, weight reports_no_key (trace r.2))
      <$> main 1 (mkArgs ["8.8.8.8"] None None None false true) Fake.quiet ∅
    = Some 0%nat.
Proof.
  split; [vm_compute; reflexivity|]. split; reflexivity.
Qed.

(** ** The export *)

Section ExportLoop.
Context {W : Type} `{Collaborators W}.

Lemma try_write_total (filename : string) (lines : list row) (s : state W) :
  ∃ o, (try_write filename lines s).1 = Ok o
       ∧ files (try_write filename lines s).2 = after_write filename lines o (files s)
       ∧ self (try_write filename lines s).2 = self s.
Proof.
  unfold try_write, emit, get, call, set_files, mbind, M_bind, mret, M_ret. simpl.
  destruct (open_and_write filename lines (world s)) as [o w']. simpl. eauto.
Qed.

Lemma try_write_written (filename : string) (lines : list row) (s s' : state W) :
  try_write filename lines s = (Ok Written, s') → files s' !! filename = Some lines.
Proof.
  intros Hw. destruct (try_write_total filename lines s) as (o & Ho & Hf & _).
  rewrite Hw in Ho, Hf. simpl in *. injection Ho as <-.
  rewrite Hf. simpl. apply lookup_insert_eq.
Qed.

Lemma write_loop_interrupted (fuel : nat) (filename : string) (lines : list row)
    (s s1 : state W) (partial : option nat) :
  try_write filename lines s = (Ok (Broke KeyboardInterrupt partial), s1) →
  write_loop (S fuel) filename lines s =
    match prompt exit_prompt s1 with
    | (Raise e', s2) => Some (Raise e', s2)
    | (Ok answer, s2) =>
        if confirm_exit answer
        then Some (Raise (SystemExit "# Scan interrupted"), s2)
        else write_loop fuel filename lines s2
    end.
Proof. intros Hw. simpl. rewrite Hw. reflexivity. Qed.

Lemma write_loop_failed (fuel : nat) (filename : string) (lines : list row)
    (s s1 : state W) (e : exn) (partial : option nat) :
  try_write filename lines s = (Ok (Broke e partial), s1) →
  is_Exception e = true →
  write_loop (S fuel) filename lines s =
    match prompt (retry_prompt e) s1 with
    | (Raise e', s2) => Some (Raise e', s2)
    | (Ok _, s2) => write_loop fuel filename lines s2
    end.
Proof. intros Hw He. simpl. rewrite Hw. simpl. rewrite He. reflexivity. Qed.

Lemma confirm_exit_yes (answer : string) :
  answer = "y" ∨ answer = "Y" ∨ answer = "" → confirm_exit answer = true.
Proof.
  intros Ha. unfold confirm_exit. apply bool_decide_eq_true_2.
  destruct Ha as [-> | [-> | ->]]; set_solver.
Qed.

Lemma confirm_exit_no (answer : string) :
  answer ≠ "y" → answer ≠ "Y" → answer ≠ "" → confirm_exit answer = false.
Proof.
  intros Hy HY He. unfold confirm_exit. apply bool_decide_eq_false_2.
  rewrite !elem_of_cons, elem_of_nil. tauto.
Qed.

(** A failure on leaving the [with] block (the flag is set by then) is
    answered by the prompt, and the loop ends without another pass. *)
Lemma write_loop_failed_on_exit (fuel : nat) (filename : string) (lines : list row)
    (s s1 s2 : state W) (e : exn) (k : nat) (answer : string) :
  try_write filename lines s = (Ok (BrokeOnExit e k), s1) →
  is_Exception e = true →
  prompt (retry_prompt e) s1 = (Ok answer, s2) →
  write_loop (S fuel) filename lines s = Some (Ok (), s2).
Proof.
  intros Hw He Hp. simpl. rewrite Hw. simpl. rewrite He.
  fold (retry_prompt e). rewrite Hp. reflexivity.
Qed.

Lemma write_loop_retries (filename : string) (lines : list row) (k : nat)
    (s s' : state W) :
  retries filename lines k s s' →
  ∀ fuel, (k < fuel)%nat → write_loop fuel filename lines s = Some (Ok (), s').
Proof.
  induction 1 as [s s' Hw | k s s1 s2 s' e partial answer Hw He Hp _ IH
                  | k s s1 s2 s' partial answer Hw Hp Hy HY Hn _ IH];
    intros [|fuel] Hlt; try lia.
  - simpl. by rewrite Hw.
  - rewrite (write_loop_failed fuel filename lines s s1 e partial Hw He), Hp.
    apply IH. lia.
  - rewrite (write_loop_interrupted fuel filename lines s s1 partial Hw), Hp.
    rewrite (confirm_exit_no answer Hy HY Hn).
    apply IH. lia.
Qed.

Lemma retries_file (filename : string) (lines : list row) (k : nat)
    (s s' : state W) :
  retries filename lines k s s' → files s' !! filename = Some lines.
Proof. induction 1; [by eapply try_write_written|done..]. Qed.

End ExportLoop.

Section ExportClaim.
Context {W : Type} `{Collaborators W}.

(** C4, as amended.  With an output path given, the rows are collected
    once, before the loop.  A pass that breaks with an exception while
    the file is opened or its rows are written shows the retry prompt
    and, once that is answered, the loop goes through the next pass.  A
    run of the loop in which [k] passes break in this way and are
    retried before one writes ends normally, given fuel for [k + 1]
    passes, and leaves under the path exactly the collected rows,
    whatever [k] is and whatever the broken passes had left there.  An
    interrupt inside the [with] block does not abort by itself: the user
    is asked, the program exits with [# Scan interrupted] on the answers
    [y], [Y] and the empty one, without another pass, and any other
    answer takes the loop up again. *)
Theorem write_output_csv_retries (path : string) (k : nat) (s s' : state W) :
  truthy path = true →
  retries (expanduser path) (output_as_lines (targets (self s))) k
          (logged [Stdout "# Saving output csv file"] s) s' →
  (∀ fuel, (k < fuel)%nat →
     write_output_csv fuel (Some path) s = Some (Ok (), s'))
  ∧ files s' !! expanduser path = Some (output_as_lines (targets (self s)))
  ∧ (∀ fuel filename lines (s0 s1 s2 : state W) e partial answer,
       try_write filename lines s0 = (Ok (Broke e partial), s1) →
       is_Exception e = true →
       prompt ("[-] Something went wrong, can't open output file. Press anything to try again."
               +:+ newline +:+ "Error: " +:+ str_exn e) s1 = (Ok answer, s2) →
       write_loop (S fuel) filename lines s0 = write_loop fuel filename lines s2)
  ∧ (∀ fuel filename lines (s0 s1 s2 : state W) partial answer,
       try_write filename lines s0 = (Ok (Broke KeyboardInterrupt partial), s1) →
       prompt "[-] Sure you want to exit without saving your file (Y/n)?" s1
         = (Ok answer, s2) →
       (answer = "y" ∨ answer = "Y" ∨ answer = "" →
          write_loop (S fuel) filename lines s0
          = Some (Raise (SystemExit "# Scan interrupted"), s2))
       ∧ (answer ≠ "y" → answer ≠ "Y" → answer ≠ "" →
          write_loop (S fuel) filename lines s0 = write_loop fuel filename lines s2)).
Proof.
  intros Hpath Hretries. split; [|split; [|split]].
  - intros fuel Hlt. unfold write_output_csv. simpl. rewrite Hpath.
    by apply (write_loop_retries _ _ k).
  - by eapply retries_file.
  - intros fuel filename lines s0 s1 s2 e partial answer Hw He Hp.
    rewrite (write_loop_failed fuel filename lines s0 s1 e partial Hw He).
    unfold retry_prompt. by rewrite Hp.
  - intros fuel filename lines s0 s1 s2 partial answer Hw Hp.
    rewrite (write_loop_interrupted fuel filename lines s0 s1 partial Hw).
    unfold exit_prompt. rewrite Hp. split.
    + intros Ha. by rewrite (confirm_exit_yes answer Ha).
    + intros Hy HY Hn. by rewrite (confirm_exit_no answer Hy HY Hn).
Qed.

End ExportClaim.

Lemma write_output_csv_retries_witness :
  (λ r, (r.1, files r.2 !! "out.csv"))
    <$> write_output_csv 3 (Some "out.csv")
          (with_target (THost (new_Host None ["8.8.8.8"]))
             (Fake.fresh false None
                (Fake.mkWorld [Broke (IOError "Permission denied") None;
                               Broke (IOError "No space left on device") (Some 1%nat)]
                              [Ok ""; Ok ""] 0)))
  = Some (Ok (), Some [[""; "host"]; ["8.8.8.8"]; [newline]])
  ∧ fst <$> write_loop 1 "out.csv" [[""; "host"]]
              (Fake.fresh false None
                 (Fake.mkWorld [Broke KeyboardInterrupt None] [Ok "y"] 0))
    = Some (Raise (SystemExit "# Scan interrupted"))
  ∧ fst <$> write_loop 2 "out.csv" [[""; "host"]]
              (Fake.fresh false None
                 (Fake.mkWorld [Broke KeyboardInterrupt None] [Ok "no"] 0))
    = Some (Ok ()).
Proof.
  set (s0 := with_target (THost (new_Host None ["8.8.8.8"]))
               (Fake.fresh false None
                  (Fake.mkWorld [Broke (IOError "Permission denied") None;
                                 Broke (IOError "No space left on device") (Some 1%nat)]
                                [Ok ""; Ok ""] 0))).
  assert (∃ s', retries "out.csv" (output_as_lines (targets (self s0))) 2
                  (logged [Stdout "# Saving output csv file"] s0) s') as [s' Hr].
  { eexists.
    eapply retries_after_error; [vm_compute; reflexivity..|].
    eapply retries_after_error; [vm_compute; reflexivity..|].
    eapply retries_written. vm_compute. reflexivity. }
  destruct (write_output_csv_retries "out.csv" 2 s0 s' eq_refl Hr)
    as (Hrun & Hfile & _ & Hint).
  split; [|split].
  - rewrite (Hrun 3%nat) by lia. simpl. f_equal. f_equal. exact Hfile.
  - set (sy := Fake.fresh false None
                 (Fake.mkWorld [Broke KeyboardInterrupt None] [Ok "y"] 0)).
    destruct (Hint 0%nat "out.csv" [[""; "host"]] sy
                (try_write "out.csv" [[""; "host"]] sy).2
                (prompt "[-] Sure you want to exit without saving your file (Y/n)?"
                   (try_write "out.csv" [[""; "host"]] sy).2).2
                None "y") as [Hyes _]; [vm_compute; reflexivity ..|].
    rewrite Hyes by (by left). reflexivity.
  - set (sn := Fake.fresh false None
                 (Fake.mkWorld [Broke KeyboardInterrupt None] [Ok "no"] 0)).
    destruct (Hint 1%nat "out.csv" [[""; "host"]] sn
                (try_write "out.csv" [[""; "host"]] sn).2
                (prompt "[-] Sure you want to exit without saving your file (Y/n)?"
                   (try_write "out.csv" [[""; "host"]] sn).2).2
                None "no") as [_ Hno]; [vm_compute; reflexivity ..|].
    rewrite Hno by discriminate. vm_compute. reflexivity.
Defined.

(** An interrupt during the first pass, answered [n]: the loop goes on,
    the second pass writes the file and the program ends normally. *)
Lemma interrupt_declined_counterexample :
  (λ r, (r.1, files r.2 !! "out.csv"))
    <$> main 2 (mkArgs ["8.8.8.8"] (Some "out.csv") None None false true)
          (Fake.mkWorld [Broke KeyboardInterrupt None] [Ok "n"] 0) ∅
  = Some (Ok (), Some [[""; "host"]; ["8.8.8.8"]; [newline]]).
Proof. vm_compute. reflexivity. Qed.

(** A failure on closing the file, after the last row: the flag is set
    by then, so the prompt is shown once and the loop ends; the program
    finishes normally over a file that holds the first row only. *)
Lemma failure_on_close_example :
  (λ r, (r.1, files r.2 !! "out.csv", weight opens_file (trace r.2),
         weight prompts (trace r.2)))
    <$> main 3 (mkArgs ["8.8.8.8"] (Some "out.csv") None None false true)
          (Fake.mkWorld [BrokeOnExit (IOError "No space left on device") 1] [Ok ""] 0) ∅
  = Some (Ok (), Some [[""; "host"]], 1%nat, 1%nat).
Proof. vm_compute. reflexivity. Qed.

(** * Further properties of the script *)

(** ** Names that resolve, and strings that do not decode *)

Section ClassifierMore.
Context {W : Type} `{Collaborators W}.

Lemma ips_of_new_Host (d : option string) (addrs : list string) :
  ip <$> ips (new_Host d addrs) = addrs.
Proof.
  unfold new_Host. cbn [ips].
  induction addrs as [|a addrs IH]; [done|]. cbn. by f_equal.
Qed.

(** X1.  A string that is neither an address nor a network and that the
    resolver answers becomes a Host whose domain is the string as typed
    and whose addresses are the answers, in their order; the unresolved
    set is left alone. *)
Theorem add_host_resolved_name (raw : string) (answers : list string) (w' : W)
    (s : state W) :
  as_ip raw = Raise ValueError → as_cidr raw = Raise ValueError →
  dns_query (lookup s) raw (world s) = (Ok answers, w') →
  add_host raw s =
    (Ok (), logged (three_attempts raw)
              (in_world w' (with_target (THost (new_Host (Some raw) answers)) s)))
  ∧ domain (new_Host (Some raw) answers) = Some raw
  ∧ ip <$> ips (new_Host (Some raw) answers) = answers
  ∧ bad_targets (self (add_host raw s).2) = bad_targets (self s).
Proof.
  intros Hip Hnet Hq.
  rewrite (add_host_dns raw answers w' s Hip Hnet Hq).
  split; [done|]. split; [done|]. split; [apply ips_of_new_Host|done].
Qed.

(** X2.  A string whose [unicode-escape] decoding raises [ValueError]
    is not fatal and is not dropped: both parses count as failed and
    the string, undecoded, goes to the resolver, whose answer decides
    as for any other name. *)
Theorem undecodable_input_goes_to_dns (raw : string) (s : state W) :
  unicode_escape raw = Raise ValueError →
  match dns_query (lookup s) raw (world s) with
  | (Ok answers, w') =>
      add_host raw s =
        (Ok (), logged (three_attempts raw)
                  (in_world w' (with_target (THost (new_Host (Some raw) answers)) s)))
  | (Raise e, w') =>
      if is_NXDOMAIN_or_SyntaxError e then
        add_host raw s =
          (Ok (), logged (three_attempts raw ++ [Stdout (unresolved_line raw)])
                    (in_world w' (with_bad_target raw s)))
      else
        add_host raw s = (Raise e, logged (three_attempts raw) (in_world w' s))
  end.
Proof.
  intros Hdec.
  assert (as_ip raw = Raise ValueError) as Hip by (unfold as_ip; by rewrite Hdec).
  assert (as_cidr raw = Raise ValueError) as Hnet by (unfold as_cidr; by rewrite Hdec).
  destruct (dns_query (lookup s) raw (world s)) as [[answers|e] w'] eqn:Hq.
  - exact (add_host_dns raw answers w' s Hip Hnet Hq).
  - destruct (is_NXDOMAIN_or_SyntaxError e) eqn:He.
    + apply (add_host_unresolved raw e w' s Hip Hnet Hq).
      unfold is_NXDOMAIN_or_SyntaxError in He.
      apply orb_true_iff in He as [He|He]; apply bool_decide_eq_true in He; auto.
    + unfold is_NXDOMAIN_or_SyntaxError in He.
      apply orb_false_iff in He as [He1 He2].
      apply bool_decide_eq_false in He1, He2.
      exact (add_host_dns_raises raw e w' s Hip Hnet Hq He1 He2).
Qed.

End ClassifierMore.

Lemma add_host_resolved_name_witness :
  targets (self (add_host "example.com" (Fake.fresh false None Fake.quiet)).2)
  = [THost (new_Host (Some "example.com") ["93.184.216.34"])].
Proof.
  destruct (add_host_resolved_name "example.com" ["93.184.216.34"]
              (Fake.mkWorld [] [] 1) (Fake.fresh false None Fake.quiet))
    as (Heq & _); [reflexivity..|].
  rewrite Heq. reflexivity.
Defined.

Lemma undecodable_input_goes_to_dns_witness :
  (add_host "host\x" (Fake.fresh false None Fake.quiet)).1 = Ok ()
  ∧ "host\x" ∈ bad_targets (self (add_host "host\x" (Fake.fresh false None Fake.quiet)).2).
Proof.
  pose proof (undecodable_input_goes_to_dns "host\x" (Fake.fresh false None Fake.quiet)
                eq_refl) as Hrun.
  simpl in Hrun. rewrite Hrun. split; [reflexivity|].
  apply elem_of_union; left. by apply elem_of_singleton.
Defined.

(** ** What [populate] keeps and how much it adds *)

Section PopulateMore.
Context {W : Type} `{Collaborators W}.

Lemma elem_of_set_add_old (t t' : Target) (ts : list Target) :
  t' ∈ ts → t' ∈ set_add t ts.
Proof. intros Hin. apply elem_of_set_add. by right. Qed.

Lemma for_each_add_host_grows (l : list string) (s : state W) :
  (∀ t, t ∈ targets (self s) → t ∈ targets (self (for_each l add_host s).2))
  ∧ bad_targets (self s) ⊆ bad_targets (self (for_each l add_host s).2)
  ∧ (length (targets (self (for_each l add_host s).2))
     ≤ length (targets (self s)) + length l)%nat.
Proof.
  revert s. induction l as [|raw l IH]; intros s.
  { simpl. split; [done|]. split; [done|lia]. }
  rewrite for_each_cons.
  destruct (add_host_step raw s)
    as [(t & Hr & _ & Ht & Hb) | [(Hr & _ & _ & Ht & Hb) | (e & Hr & Hs)]];
    destruct (add_host raw s) as [r s1]; simpl in *; subst r; simpl.
  - destruct (IH s1) as (IHt & IHb & IHl). rewrite Ht, Hb in *.
    split; [|split].
    + intros t' Hin. by apply IHt, elem_of_set_add_old.
    + done.
    + pose proof (set_add_length t (targets (self s))). lia.
  - destruct (IH s1) as (IHt & IHb & IHl). rewrite Ht, Hb in *.
    split; [done|]. split; [|lia].
    intros x Hx. apply IHb, elem_of_union. by right.
  - rewrite Hs. split; [done|]. split; [done|lia].
Qed.

(** X3.  [populate] only adds: every target and every unresolved
    string present before the call is present after it, whether the
    call returns or raises, and the mode and the settings of
    [src.lookup] are as before. *)
Theorem populate_only_adds (l : list string) (s : state W) :
  (∀ t, t ∈ targets (self s) → t ∈ targets (self (populate l s).2))
  ∧ bad_targets (self s) ⊆ bad_targets (self (populate l s).2)
  ∧ dns_only (self (populate l s).2) = dns_only (self s)
  ∧ lookup (populate l s).2 = lookup s.
Proof.
  destruct (for_each_add_host_grows l s) as (Ht & Hb & _).
  rewrite populate_self. split; [done|]. split; [done|].
  assert (keeps (lookup s) (dns_only (self s)) (for_each l add_host s).2) as [Hl Hd].
  { apply (counts_for_each (lookup s) (dns_only (self s)) reports_no_key l add_host
             (add_host_no_report _ _)). done. }
  split; [done|]. rewrite <- Hl.
  unfold populate, mbind, M_bind, get, print, emit, mret, M_ret.
  destruct (for_each l add_host s) as [[[]|e] s1]; simpl; [|done].
  repeat (match goal with |- context [if ?c then _ else _] => destruct c end; simpl);
    done.
Qed.

(** X4.  Started with an empty target set, [populate] ends with at most
    as many targets as it was given inputs; when it returns, its
    summary is [# No hosts to scan] if the set is still empty and
    otherwise the line that gives the two counts. *)
Theorem populate_summary (l : list string) (s : state W) :
  targets (self s) = [] → (populate l s).1 = Ok () →
  (length (targets (self (populate l s).2)) ≤ length l)%nat
  ∧ Stdout (if nonempty (targets (self (populate l s).2))
            then "# Scanning " +:+ str_nat (length (targets (self (populate l s).2)))
                 +:+ "/" +:+ str_nat (length l) +:+ " hosts"
            else "# No hosts to scan")
    ∈ trace (populate l s).2.
Proof.
  intros Hempty Hok. split.
  - destruct (for_each_add_host_grows l s) as (_ & _ & Hlen).
    rewrite populate_self, Hempty in *. simpl in Hlen. lia.
  - revert Hok. rewrite populate_self.
    unfold populate, mbind, M_bind, get, print, emit, mret, M_ret.
    destruct (for_each l add_host s) as [[[]|e] s1]; simpl; [|discriminate].
    intros _. destruct (nonempty (targets (self s1))) eqn:Hn; simpl.
    + destruct (dns_only (self s1)); simpl;
        [|destruct (truthy_opt (shodan_key (lookup s1))); simpl];
        rewrite ?elem_of_app, ?list_elem_of_singleton; auto.
    + rewrite elem_of_app, list_elem_of_singleton. auto.
Qed.

End PopulateMore.

Lemma populate_summary_witness :
  Stdout "# Scanning 2/3 hosts"
    ∈ trace (populate ["8.8.8.8"; "nope.invalid"; "10.0.0.0/30"]
               (Fake.fresh false None Fake.quiet)).2.
Proof.
  assert ((populate ["8.8.8.8"; "nope.invalid"; "10.0.0.0/30"]
             (Fake.fresh false None Fake.quiet)).1 = Ok ()) as Hok
    by (vm_compute; reflexivity).
  pose proof (proj2 (populate_summary ["8.8.8.8"; "nope.invalid"; "10.0.0.0/30"]
                       (Fake.fresh false None Fake.quiet) eq_refl Hok)) as Hin.
  vm_compute in Hin. vm_compute. exact Hin.
Defined.

(** ** The list handed to [populate] *)

Lemma lt_irrefl_string (x : string) : ¬ OrderedTypeEx.String_as_OT.lt x x.
Proof. intros Hlt. by apply OrderedTypeEx.String_as_OT.lt_not_eq in Hlt. Qed.

Lemma strictly_sorted_unique (l1 l2 : list string) :
  StronglySorted OrderedTypeEx.String_as_OT.lt l1 →
  StronglySorted OrderedTypeEx.String_as_OT.lt l2 →
  (∀ x, x ∈ l1 ↔ x ∈ l2) → l1 = l2.
Proof.
  intros Hs1. revert l2.
  induction Hs1 as [|a l1 Hs1 IH Ha]; intros l2 Hs2 Hsame.
  { destruct l2 as [|b l2]; [done|].
    exfalso. eapply not_elem_of_nil, Hsame. left. }
  destruct Hs2 as [|b l2 Hs2 Hb].
  { exfalso. eapply not_elem_of_nil, Hsame. left. }
  rewrite Forall_forall in Ha, Hb.
  assert (a = b) as <-.
  { assert (a ∈ b :: l2) as Hab by (apply Hsame; left).
    assert (b ∈ a :: l1) as Hba by (apply Hsame; left).
    apply elem_of_cons in Hab as [?|Hab]; [done|].
    apply elem_of_cons in Hba as [?|Hba]; [done|].
    exfalso. apply (lt_irrefl_string a).
    eapply OrderedTypeEx.String_as_OT.lt_trans; [by apply Ha | by apply Hb]. }
  f_equal. apply IH; [done|]. intros x. split; intros Hx.
  - assert (x ∈ a :: l2) as Hx' by (apply Hsame; by right).
    apply elem_of_cons in Hx' as [->|?]; [|done].
    exfalso. apply (lt_irrefl_string a). by apply Ha.
  - assert (x ∈ a :: l1) as Hx' by (apply Hsame; by right).
    apply elem_of_cons in Hx' as [->|?]; [|done].
    exfalso. apply (lt_irrefl_string a). by apply Hb.
Qed.

(** X5.  The list that the top level hands to [populate] depends only
    on which strings were given, not on their order or on how often
    each was repeated, and it is strictly increasing in byte order. *)
Theorem sorted_set_canonical (args1 args2 : list string) :
  (∀ x, x ∈ args1 ↔ x ∈ args2) →
  sorted_set args1 = sorted_set args2
  ∧ StronglySorted OrderedTypeEx.String_as_OT.lt (sorted_set args1).
Proof.
  intros Hsame. split; [|apply sorted_set_sorted].
  apply strictly_sorted_unique; try apply sorted_set_sorted.
  intros x. by rewrite !sorted_set_elem.
Qed.

Lemma sorted_set_canonical_witness :
  sorted_set ["example.com"; "8.8.8.8"; "example.com"] = ["8.8.8.8"; "example.com"]
  ∧ sorted_set ["8.8.8.8"; "example.com"] = ["8.8.8.8"; "example.com"].
Proof.
  split; [|reflexivity].
  destruct (sorted_set_canonical ["example.com"; "8.8.8.8"; "example.com"]
              ["8.8.8.8"; "example.com"]) as [Heq _].
  - intros x. rewrite !elem_of_cons, !elem_of_nil. tauto.
  - rewrite Heq. reflexivity.
Defined.

(** ** The order of the phases of a full scan *)

Lemma phases_app (evs1 evs2 : list event) :
  phases (evs1 ++ evs2) = phases evs1 ++ phases evs2.
Proof. apply omap_app. Qed.

Section Schedule.
Context {W : Type}.

Lemma follows_ret {A} (a : A) : follows (W:=W) [] (mret a).
Proof. intros s. exists []. simpl. by rewrite app_nil_r. Qed.

Lemma follows_emit (e : event) : follows (W:=W) (phases [e]) (emit e).
Proof. intros s. exists [e]. done. Qed.

Lemma follows_emit0 (e : event) : phases [e] = [] → follows (W:=W) [] (emit e).
Proof. intros <-. apply follows_emit. Qed.

Lemma follows_call {A} (f : W → result A * W) : follows [] (call f).
Proof.
  intros s. unfold call. destruct (f (world s)) as [r w]. exists []. simpl.
  by rewrite app_nil_r.
Qed.

Lemma follows_bind {A B} (c1 c2 : list phase) (m : M W A) (f : A → M W B) :
  follows c1 m → (∀ a, follows c2 (f a)) → follows (c1 ++ c2) (m ≫= f).
Proof.
  intros Hm Hf s. unfold mbind, M_bind.
  destruct (Hm s) as (evs1 & Ht1 & Hs1).
  destruct (m s) as [[a|e] s1]; simpl in *.
  - destruct (Hf a s1) as (evs2 & Ht2 & Hs2). exists (evs1 ++ evs2).
    rewrite Ht2, Ht1, app_assoc, phases_app. split; [done|]. by apply sublist_app.
  - exists evs1. split; [done|]. by apply sublist_inserts_r.
Qed.

Lemma follows_bind0 {A B} (c : list phase) (m : M W A) (f : A → M W B) :
  follows [] m → (∀ a, follows c (f a)) → follows c (m ≫= f).
Proof. intros Hm Hf. by apply (follows_bind [] c). Qed.

Lemma follows_get_bind {B} (c : list phase) (f : state W → M W B) :
  (∀ s0, follows c (f s0)) → follows c (get ≫= f).
Proof. intros Hf s. exact (Hf s s). Qed.

Lemma follows_ite {A} (c : list phase) (b : bool) (m1 m2 : M W A) :
  follows c m1 → follows c m2 → follows c (if b then m1 else m2).
Proof. by destruct b. Qed.

Lemma follows_nil {A} (c : list phase) (m : M W A) : follows [] m → follows c m.
Proof.
  intros Hm s. destruct (Hm s) as (evs & Ht & Hs). exists evs. split; [done|].
  apply sublist_nil_r in Hs. rewrite Hs. apply sublist_nil_l.
Qed.

Lemma follows_for_each {A} (l : list A) (body : A → M W unit) :
  (∀ x, follows [] (body x)) → follows [] (for_each l body).
Proof.
  intros Hb. induction l as [|x l IH]; simpl.
  - apply follows_ret.
  - apply follows_bind0; [apply Hb | intros _; apply IH].
Qed.

End Schedule.

(** No phase entered: one rule per construct. *)
Ltac follow_zero :=
  lazymatch goal with
  | |- follows _ (mret _) => apply follows_ret
  | |- follows _ (call _) => apply follows_call
  | |- follows _ (emit _) => apply follows_emit0; reflexivity
  | |- follows _ (print _) => apply follows_emit0; reflexivity
  | |- follows _ (print_listing _) => apply follows_emit0; reflexivity
  | |- follows _ (when _ _) => unfold when; follow_zero
  | |- follows _ (get ≫= _) => apply follows_get_bind; intros ?; follow_zero
  | |- follows _ (_ ≫= _) => apply follows_bind0; [follow_zero | intros ?; follow_zero]
  | |- follows _ (if _ then _ else _) => apply follows_ite; follow_zero
  | |- follows _ (for_each _ _) => apply follows_for_each; intros ?; follow_zero
  | |- follows _ (let _ := _ in _) => cbv zeta; follow_zero
  end.

(** The phases of the schedule, taken off its head one statement at a
    time. *)
Ltac follow :=
  lazymatch goal with
  | |- follows [] _ => follow_zero
  | |- follows _ (get ≫= _) => apply follows_get_bind; intros ?; follow
  | |- follows [?p] (enter ?p _) =>
      unfold enter; apply (follows_bind [p] []);
      [exact (follows_emit (Enter p)) | intros ?; apply follows_call]
  | |- follows (?p :: ?rest) (_ ≫= _) =>
      first [ apply follows_bind0; [solve [follow_zero] | intros ?; follow]
            | apply (follows_bind [p] rest); [solve [follow] | intros ?; follow] ]
  | |- follows _ (if _ then _ else _) => apply follows_ite; follow
  | |- follows _ _ => apply follows_nil; follow_zero
  end.

(** Exactly one entry into the phase that the weight counts. *)
Ltac count_one :=
  lazymatch goal with
  | |- counts _ _ _ _ (get ≫= _) => apply counts_get_bind; intros ? ?; count_one
  | |- counts _ _ ?μ _ (enter ?p _) =>
      unfold enter; apply counts_bind_first;
      [exact (counts_emit _ _ μ (Enter p)) | intros ?; apply counts_call]
  | |- counts _ _ _ _ (_ ≫= _) =>
      first [ apply counts_bind0; [solve [count_zero] | intros ?; count_one]
            | apply counts_bind_first; [count_one | intros ?; solve [count_zero]] ]
  end.

Section FullScan.
Context {W : Type} `{Collaborators W}.

Lemma full_scan_follows_schedule (host : Host) :
  follows full_scan_schedule (full_scan_on_host host).
Proof. unfold full_scan_on_host, full_scan_schedule. follow. Qed.

Lemma full_scan_enters_mandatory (lk : lookup_module) (d : bool) (p : phase)
    (host : Host) :
  p ∈ [DnsLookups; NsLookup; MxLookup; WhoisDomain; WhoisIP] →
  counts lk d (enters p) 1 (full_scan_on_host host).
Proof.
  rewrite !elem_of_cons, elem_of_nil.
  intros [-> | [-> | [-> | [-> | [-> | []]]]]]; unfold full_scan_on_host; count_one.
Qed.

End FullScan.

Section FullScanOrder.
Context {W : Type} `{Collaborators W}.

(** X6.  Whatever the lookups return or raise, a full scan of a Host
    enters its phases in the one order DNS, NS, MX, whois of the domain,
    whois of the addresses, Shodan, Google, reverse sweep, and none of
    them twice: the phases entered are a sublist of that schedule. *)
Theorem full_scan_phase_order (host : Host) (s : state W) :
  ∃ evs, trace (full_scan_on_host host s).2 = trace s ++ evs
         ∧ phases evs `sublist_of` full_scan_schedule.
Proof. apply full_scan_follows_schedule. Qed.

(** X7.  A full scan that returns has entered each of the five phases
    DNS, NS, MX, whois of the domain and whois of the addresses exactly
    once, whatever the Host looks like; a scan that raises has entered
    each at most once. *)
Theorem full_scan_mandatory_phases (p : phase) (host : Host) (s : state W) :
  p ∈ [DnsLookups; NsLookup; MxLookup; WhoisDomain; WhoisIP] →
  ∃ evs, trace (full_scan_on_host host s).2 = trace s ++ evs
         ∧ (weight (enters p) evs ≤ 1)%nat
         ∧ ∀ host', (full_scan_on_host host s).1 = Ok host' →
                    weight (enters p) evs = 1%nat.
Proof.
  intros Hp.
  destruct (full_scan_enters_mandatory (lookup s) (dns_only (self s)) p host Hp s
              (conj eq_refl eq_refl)) as [_ Hevs].
  exact Hevs.
Qed.

End FullScanOrder.

Lemma full_scan_mandatory_phases_witness :
  ∃ evs, trace (full_scan_on_host (new_Host None ["8.8.8.8"])
                  (Fake.fresh false None Fake.quiet)).2 = evs
         ∧ weight (enters WhoisIP) evs = 1%nat.
Proof.
  destruct (full_scan_mandatory_phases WhoisIP (new_Host None ["8.8.8.8"])
              (Fake.fresh false None Fake.quiet)) as (evs & Ht & _ & Heq).
  - rewrite !elem_of_cons. auto 10.
  - exists evs. split; [exact Ht|].
    apply (Heq (new_Host None ["8.8.8.8"])). reflexivity.
Defined.

(** ** What the scans leave alone *)

Section Frames.
Context {W X : Type} (f : state W → X).

Lemma preserves_bind {A B} (m : M W A) (g : A → M W B) :
  preserves f m → (∀ a, preserves f (g a)) → preserves f (m ≫= g).
Proof.
  intros Hm Hg s. unfold mbind, M_bind. specialize (Hm s).
  destruct (m s) as [[a|e] s1]; simpl in *; [|done]. by rewrite Hg.
Qed.

Lemma preserves_get_bind {B} (g : state W → M W B) :
  (∀ s0, preserves f (g s0)) → preserves f (get ≫= g).
Proof. intros Hg s. exact (Hg s s). Qed.

Lemma preserves_ite {A} (b : bool) (m1 m2 : M W A) :
  preserves f m1 → preserves f m2 → preserves f (if b then m1 else m2).
Proof. by destruct b. Qed.

Lemma preserves_for_each {A} (l : list A) (body : A → M W unit) :
  (∀ x, preserves f (body x)) → preserves f (for_each l body).
Proof.
  intros Hb. induction l as [|x l IH]; simpl; [done|].
  apply preserves_bind; [apply Hb | intros _; apply IH].
Qed.

Lemma preserves_try_except {A} (body : M W A) (classes : exn → bool)
    (handler : exn → M W A) :
  preserves f body → (∀ e, preserves f (handler e)) →
  preserves f (try_except body classes handler).
Proof.
  intros Hb Hh s. unfold try_except. specialize (Hb s).
  destruct (body s) as [[a|e] s1]; simpl in *; [done|].
  destruct (classes e); simpl; [|done]. by rewrite Hh.
Qed.

Lemma preserves_call {A} (g : W → result A * W) :
  (∀ s w, f (mkState (self s) (lookup s) w (trace s) (files s)) = f s) →
  preserves f (call g).
Proof.
  intros Hw s. unfold call. destruct (g (world s)) as [r w]. simpl. apply Hw.
Qed.

End Frames.

(** Preservation of a field: one rule per construct. *)
Ltac preserve :=
  lazymatch goal with
  | |- preserves _ (call _) => apply preserves_call; intros ? ?; reflexivity
  | |- preserves _ (enter _ _) => unfold enter; preserve
  | |- preserves _ (prompt _) => unfold prompt; preserve
  | |- preserves _ (when _ _) => unfold when; preserve
  | |- preserves _ (targets_add _) => intros ?; reflexivity
  | |- preserves _ (bad_targets_add _) => intros ?; reflexivity
  | |- preserves _ (store _ _) => intros ?; reflexivity
  | |- preserves _ (get ≫= _) => apply preserves_get_bind; intros ?; preserve
  | |- preserves _ (_ ≫= _) => apply preserves_bind; [preserve | intros ?; preserve]
  | |- preserves _ (if _ then _ else _) => apply preserves_ite; preserve
  | |- preserves _ (for_each _ _) => apply preserves_for_each; intros ?; preserve
  | |- preserves _ (try_except _ _ _) =>
      apply preserves_try_except; [preserve | intros ?; preserve]
  | |- preserves _ (let _ := _ in _) => cbv zeta; preserve
  | |- preserves _ _ => intros ?; reflexivity
  end.

Section ScanFrames.
Context {W : Type} `{Collaborators W}.

Lemma scan_target_self (target : Target) : preserves (W:=W) self (scan_target target).
Proof.
  destruct target as [h|n]; simpl;
    unfold dns_scan_on_host, full_scan_on_host, reverse_dns_on_network; preserve.
Qed.

Lemma scan_target_files (target : Target) : preserves (W:=W) files (scan_target target).
Proof.
  destruct target as [h|n]; simpl;
    unfold dns_scan_on_host, full_scan_on_host, reverse_dns_on_network; preserve.
Qed.

Lemma scan_target_lookup (target : Target) :
  preserves (W:=W) lookup (scan_target target).
Proof.
  destruct target as [h|n]; simpl;
    unfold dns_scan_on_host, full_scan_on_host, reverse_dns_on_network; preserve.
Qed.

Lemma scan_target_kind (target target' : Target) (s : state W) :
  (scan_target target s).1 = Ok target' → is_Host target' = is_Host target.
Proof.
  destruct target as [h|n]; simpl; unfold mbind, M_bind, get, mret, M_ret.
  - destruct (if dns_only (self s) then _ else _) as [[h'|e] s1]; simpl;
      [by intros [= <-]|discriminate].
  - destruct (reverse_dns_on_network n s) as [[n'|e] s1]; simpl;
      [by intros [= <-]|discriminate].
Qed.

Lemma scan_from_preserves {X} (f : state W → X) (i : nat) (todo : list Target) :
  (∀ t, preserves f (scan_target t)) → (∀ j t, preserves f (store j t)) →
  preserves f (scan_from i todo).
Proof.
  intros Ht Hs. revert i. induction todo as [|t todo IH]; intros i; simpl; [done|].
  apply preserves_bind; [apply Ht | intros t'].
  apply preserves_bind; [apply Hs | intros _; apply IH].
Qed.

Lemma scan_from_kinds (todo : list Target) (i : nat) (s : state W) :
  drop i (targets (self s)) = todo →
  is_Host <$> targets (self (scan_from i todo s).2) = is_Host <$> targets (self s).
Proof.
  revert i s. induction todo as [|t todo IH]; intros i s Hdrop; simpl; [done|].
  unfold mbind at 1, M_bind at 1.
  pose proof (scan_target_self t s) as Hself.
  pose proof (λ t', scan_target_kind t t' s) as Hkind.
  destruct (scan_target t s) as [[t'|e] s1]; simpl in *; [|by rewrite Hself].
  specialize (Hkind t' eq_refl).
  assert (targets (self s) !! i = Some t) as Hi.
  { rewrite <- (Nat.add_0_r i), <- lookup_drop, Hdrop. done. }
  unfold mbind at 1, M_bind at 1. simpl. rewrite Hself.
  rewrite IH.
  - simpl. rewrite list_fmap_insert, Hkind.
    apply list_insert_id. by rewrite list_lookup_fmap, Hi.
  - simpl. rewrite drop_insert_lt by lia.
    rewrite (drop_S _ _ _ Hi) in Hdrop. by injection Hdrop.
Qed.

Lemma add_host_files (raw : string) : preserves (W:=W) files (add_host raw).
Proof. unfold add_host. preserve. Qed.

Lemma populate_files (l : list string) : preserves (W:=W) files (populate l).
Proof.
  unfold populate.
  apply preserves_bind; [apply preserves_for_each, add_host_files | intros _; preserve].
Qed.

End ScanFrames.

Section ScanInPlace.
Context {W : Type} `{Collaborators W}.

(** X8.  [scan_targets] works in place: after it, returned or raised,
    the target set has as many members as before, a Host where there
    was a Host and a Network where there was a Network; the unresolved
    set, the mode, the settings of [src.lookup] and the files are what
    they were. *)
Theorem scan_targets_in_place (s : state W) :
  is_Host <$> targets (self (scan_targets s).2) = is_Host <$> targets (self s)
  ∧ bad_targets (self (scan_targets s).2) = bad_targets (self s)
  ∧ dns_only (self (scan_targets s).2) = dns_only (self s)
  ∧ lookup (scan_targets s).2 = lookup s
  ∧ files (scan_targets s).2 = files s.
Proof.
  unfold scan_targets, mbind, M_bind, get. simpl.
  split; [by apply scan_from_kinds|].
  split; [|split; [|split]].
  - apply (scan_from_preserves (λ s, bad_targets (self s))); [|by intros ? ? ?].
    intros t s0. simpl. by rewrite (scan_target_self t s0).
  - apply (scan_from_preserves (λ s, dns_only (self s))); [|by intros ? ? ?].
    intros t s0. simpl. by rewrite (scan_target_self t s0).
  - apply (scan_from_preserves lookup); [apply scan_target_lookup|by intros ? ? ?].
  - apply (scan_from_preserves files); [apply scan_target_files|by intros ? ? ?].
Qed.

End ScanInPlace.

(** ** The DNS-only mode over the whole target set *)

Lemma number_of_cons (P : Target → bool) (t : Target) (ts : list Target) :
  number_of P (t :: ts) = ((if P t then 1 else 0) + number_of P ts)%nat.
Proof. unfold number_of. simpl. by destruct (P t). Qed.

Lemma sum_number_of (P : Target → bool) (ts : list Target) :
  sum_list_with (λ t, if P t then 1%nat else 0%nat) ts = number_of P ts.
Proof.
  induction ts as [|t ts IH]; [done|]. rewrite number_of_cons. simpl. by rewrite IH.
Qed.

Section DnsOnly.
Context {W : Type} `{Collaborators W}.

(** The loop adds up what the scans of its targets count. *)
Lemma scan_from_sum (lk : lookup_module) (d : bool) (μ : event → nat)
    (k : Target → nat) :
  (∀ t, counts lk d μ (k t) (scan_target t)) →
  ∀ todo i, counts lk d μ (sum_list_with k todo) (scan_from i todo).
Proof.
  intros Ht todo. induction todo as [|t todo IH]; intros i; simpl.
  - apply counts_ret.
  - apply counts_bind; [apply Ht | intros t'].
    apply counts_bind0; [apply counts_store | intros _; apply IH].
Qed.

Lemma scan_target_enters_dns (lk : lookup_module) (t : Target) :
  counts lk true (enters DnsLookups) (if is_Host t then 1 else 0) (scan_target t).
Proof.
  destruct t as [h|n]; simpl.
  - apply counts_get_bind; intros s0 [_ ->].
    apply counts_bind_first; [|intros ?; apply counts_ret].
    unfold dns_scan_on_host. count_one.
  - unfold reverse_dns_on_network. count_zero.
Qed.

Lemma scan_target_enters_sweep (lk : lookup_module) (t : Target) :
  counts lk true (enters ReverseSweep) (if is_Network t then 1 else 0) (scan_target t).
Proof.
  destruct t as [h|n]; simpl.
  - apply counts_get_bind; intros s0 [_ ->].
    unfold dns_scan_on_host. count_zero.
  - apply counts_bind_first; [|intros ?; apply counts_ret].
    unfold reverse_dns_on_network. count_one.
Qed.

Lemma scan_target_host_dns_only (h : Host) (s : state W) :
  dns_only (self s) = true →
  scan_target (THost h) s =
    match dns_lookups (lookup s) h (world s) with
    | (Ok h', w') =>
        (Ok (THost h'),
         logged (dns_scan_header h ++ [Enter DnsLookups] ++ dns_only_result h')
                (in_world w' s))
    | (Raise e, w') =>
        (Raise e, logged (dns_scan_header h ++ [Enter DnsLookups]) (in_world w' s))
    end.
Proof.
  intros Hd. simpl. unfold mbind at 1, M_bind at 1, get. rewrite Hd.
  unfold mbind, M_bind. rewrite dns_scan_on_host_run.
  by destruct (dns_lookups (lookup s) h (world s)) as [[h'|e] w'].
Qed.

(** The scan of one target in the DNS-only mode prints the result line
    once when the target it returns is a Host with a domain, and not at
    all otherwise. *)
Lemma scan_target_listing (t : Target) (s : state W) :
  dns_only (self s) = true →
  ∃ evs, trace (scan_target t s).2 = trace s ++ evs
         ∧ ∀ t', (scan_target t s).1 = Ok t' →
             weight listing evs = if has_domain t' then 1%nat else 0%nat.
Proof.
  intros Hd. destruct t as [h|n].
  - rewrite (scan_target_host_dns_only h s Hd).
    destruct (dns_lookups (lookup s) h (world s)) as [[h'|e] w']; simpl.
    + eexists. split; [reflexivity|]. intros t' [= <-]. simpl.
      unfold dns_only_result. destruct (truthy_opt (domain h')); reflexivity.
    + eexists. split; [reflexivity|]. intros t' [=].
  - assert (counts (lookup s) true listing 0 (scan_target (TNetwork n))) as Hc.
    { simpl. unfold reverse_dns_on_network. count_zero. }
    destruct (Hc s (conj eq_refl Hd)) as [_ (evs & Ht & Hle & _)].
    exists evs. split; [done|]. intros t' Hok.
    pose proof (scan_target_kind (TNetwork n) t' s Hok) as Hkind.
    destruct t' as [h'|n']; [discriminate|]. simpl. lia.
Qed.

(** One turn of the loop: the scan of the target, the updated object
    back at its position, the rest of the set. *)
Lemma scan_from_cons (i : nat) (t : Target) (todo : list Target) (s : state W) :
  scan_from i (t :: todo) s =
    match scan_target t s with
    | (Ok t', s1) =>
        scan_from (S i) todo
          (mkState (mkInstaRecon (dns_only (self s1)) (<[i := t']> (targets (self s1)))
                                 (bad_targets (self s1)))
                   (lookup s1) (world s1) (trace s1) (files s1))
    | (Raise e, s1) => (Raise e, s1)
    end.
Proof. reflexivity. Qed.

(** The loop leaves the positions before its own alone. *)
Lemma scan_from_lookup_before (todo : list Target) (i j : nat) (s : state W) :
  (j < i)%nat → targets (self (scan_from i todo s).2) !! j = targets (self s) !! j.
Proof.
  revert i s. induction todo as [|t todo IH]; intros i s Hj; [done|].
  rewrite scan_from_cons.
  pose proof (scan_target_self t s) as Hself.
  destruct (scan_target t s) as [[t'|e] s1]; simpl in Hself;
    [|simpl; by rewrite Hself].
  rewrite IH by lia. simpl. rewrite Hself. apply list_lookup_insert_ne. lia.
Qed.

Lemma scan_from_listing (todo : list Target) (i : nat) (s : state W) :
  dns_only (self s) = true →
  drop i (targets (self s)) = todo →
  ∃ evs, trace (scan_from i todo s).2 = trace s ++ evs
         ∧ ((scan_from i todo s).1 = Ok () →
            weight listing evs
            = number_of has_domain (drop i (targets (self (scan_from i todo s).2)))).
Proof.
  revert i s. induction todo as [|t todo IH]; intros i s Hd Hdrop.
  { simpl. exists []. rewrite app_nil_r. split; [done|]. intros _. by rewrite Hdrop. }
  assert (targets (self s) !! i = Some t) as Hi.
  { rewrite <- (Nat.add_0_r i), <- lookup_drop, Hdrop. done. }
  destruct (scan_target_listing t s Hd) as (evs1 & Ht1 & Hw1).
  pose proof (scan_target_self t s) as Hself.
  rewrite scan_from_cons.
  destruct (scan_target t s) as [[t'|e] s1]; simpl in Ht1, Hw1, Hself.
  2:{ exists evs1. split; [done|]. intros [=]. }
  match goal with
  | |- context [scan_from (S i) todo ?s2] =>
      pose proof (scan_from_lookup_before todo (S i) i s2 (Nat.lt_succ_diag_r i))
        as Hbefore;
      destruct (IH (S i) s2) as (evs2 & Ht2 & Hw2)
  end.
  { simpl. by rewrite Hself. }
  { simpl. rewrite Hself, drop_insert_lt by lia.
    rewrite (drop_S _ _ _ Hi) in Hdrop. by injection Hdrop. }
  simpl in Hbefore, Ht2.
  rewrite list_lookup_insert_eq in Hbefore
    by (rewrite Hself; by eapply lookup_lt_Some).
  exists (evs1 ++ evs2). split.
  - by rewrite Ht2, Ht1, app_assoc.
  - intros Hok. rewrite weight_app, (Hw1 t' eq_refl), (Hw2 Hok).
    by rewrite (drop_S _ _ _ Hbefore), number_of_cons.
Qed.

(** C3.  In the DNS-only mode the scan of a Host is the DNS lookup phase
    and nothing else: after the header the only phase entered is
    [dns_lookups], and the condensed result line follows exactly when
    the Host has a domain once the lookups have returned.  Over the
    whole target set no phase is entered but the DNS lookups and, for
    Network targets, the reverse sweep; and a scan of the set that
    returns has entered the DNS lookups once for every Host of the set,
    the reverse sweep once for every Network and for no Host, and has
    printed as many result lines as the set then holds Hosts with a
    domain. *)
Theorem dns_only_mode (s : state W) :
  dns_only (self s) = true →
  (∀ h, scan_target (THost h) s =
          match dns_lookups (lookup s) h (world s) with
          | (Ok h', w') =>
              (Ok (THost h'),
               logged (dns_scan_header h ++ [Enter DnsLookups] ++ dns_only_result h')
                      (in_world w' s))
          | (Raise e, w') =>
              (Raise e, logged (dns_scan_header h ++ [Enter DnsLookups]) (in_world w' s))
          end)
  ∧ ∃ evs, trace (scan_targets s).2 = trace s ++ evs
           ∧ weight enters_beyond_dns evs = 0%nat
           ∧ (weight (enters DnsLookups) evs ≤ number_of is_Host (targets (self s)))%nat
           ∧ (weight (enters ReverseSweep) evs
              ≤ number_of is_Network (targets (self s)))%nat
           ∧ ((scan_targets s).1 = Ok () →
              weight (enters DnsLookups) evs = number_of is_Host (targets (self s))
              ∧ weight (enters ReverseSweep) evs
                = number_of is_Network (targets (self s))
              ∧ weight listing evs
                = number_of has_domain (targets (self (scan_targets s).2))).
Proof.
  intros Hd. split.
  { intros h. by apply scan_target_host_dns_only. }
  assert (Hkeeps : keeps (lookup s) true s) by done.
  assert (Hbeyond : counts (lookup s) true enters_beyond_dns 0 (scan_targets (W:=W))).
  { apply counts_get_bind; intros s0 _.
    apply scan_from_counts. intros t. by apply scan_target_beyond_dns. }
  assert (Hdns : counts (lookup s) true (enters DnsLookups)
                   (number_of is_Host (targets (self s)))
                   (scan_from 0 (targets (self s)))).
  { rewrite <- sum_number_of. apply scan_from_sum, scan_target_enters_dns. }
  assert (Hsweep : counts (lookup s) true (enters ReverseSweep)
                     (number_of is_Network (targets (self s)))
                     (scan_from 0 (targets (self s)))).
  { rewrite <- sum_number_of. apply scan_from_sum, scan_target_enters_sweep. }
  destruct (Hbeyond s Hkeeps) as [_ (evs & Ht & Hle & _)].
  destruct (Hdns s Hkeeps) as [_ (evs1 & Ht1 & Hle1 & Heq1)].
  destruct (Hsweep s Hkeeps) as [_ (evs2 & Ht2 & Hle2 & Heq2)].
  destruct (scan_from_listing (targets (self s)) 0 s Hd (drop_0 _))
    as (evs3 & Ht3 & Heq3).
  change (scan_from 0 (targets (self s)) s) with (scan_targets s) in *.
  rewrite Ht in Ht1, Ht2, Ht3.
  apply app_inv_head in Ht1 as <-. apply app_inv_head in Ht2 as <-.
  apply app_inv_head in Ht3 as <-.
  exists evs. split; [done|]. split; [lia|]. split; [done|]. split; [done|].
  intros Hok. split; [by apply (Heq1 ())|]. split; [by apply (Heq2 ())|].
  rewrite (Heq3 Hok). by rewrite drop_0.
Qed.

End DnsOnly.

Lemma dns_only_mode_witness :
  let s := mkState (mkInstaRecon true
                      [THost (mkHost (Some "example.com") [mkIP "93.184.216.34" [] None None]
                                [] [] None [] [] None);
                       THost (mkHost None [mkIP "8.8.8.8" [] None None]
                                [] [] None [] [] None);
                       TNetwork (mkNetwork [ipa.Network ipa.V4 167772160 24] [])] ∅)
                   (mkLookup None None None None) Fake.quiet [] ∅ in
  trace (scan_targets s).2
  = [Stdout "";
     Stdout "# _________________ DNS lookups on example.com _________________ #";
     Enter DnsLookups;
     Stdout "";
     Listing "example.com - 93.184.216.34";
     Stdout "";
     Stdout "# _________________ DNS lookups on 8.8.8.8 _________________ #";
     Enter DnsLookups;
     Stdout "";
     Stdout "# _____________ Reverse DNS lookups on 10.0.0.0/24 _____________ #";
     Enter ReverseSweep]
  ∧ weight (enters DnsLookups) (trace (scan_targets s).2) = 2%nat
  ∧ weight (enters ReverseSweep) (trace (scan_targets s).2) = 1%nat
  ∧ weight listing (trace (scan_targets s).2) = 1%nat
  ∧ weight enters_beyond_dns (trace (scan_targets s).2) = 0%nat.
Proof.
  intros s. split; [vm_compute; reflexivity|].
  destruct (dns_only_mode s eq_refl) as (_ & evs & Ht & Hbeyond & _ & _ & Hok).
  destruct Hok as (Hdns & Hsweep & Hlisting); [vm_compute; reflexivity|].
  change (trace s ++ evs) with evs in Ht. rewrite Ht.
  split; [exact Hdns|]. split; [exact Hsweep|]. split; [|exact Hbeyond].
  rewrite Hlisting. vm_compute. reflexivity.
Defined.

(** ** The retry loop, pass by pass *)

Section RetryLoop.
Context {W : Type} `{Collaborators W}.

Lemma try_write_trace (filename : string) (lines : list row) (s : state W) :
  trace (try_write filename lines s).2 = trace s ++ [OpenFile filename].
Proof.
  unfold try_write, emit, get, call, set_files, mbind, M_bind, mret, M_ret. simpl.
  by destruct (open_and_write filename lines (world s)) as [o w'].
Qed.

Lemma prompt_trace (msg : string) (s : state W) :
  trace (prompt msg s).2 = trace s ++ [Prompt msg].
Proof.
  unfold prompt, emit, call, mbind, M_bind. simpl.
  by destruct (raw_input msg (world s)) as [r w'].
Qed.

Lemma prompt_files (msg : string) : preserves (W:=W) files (prompt msg).
Proof. preserve. Qed.

Lemma retries_trace (filename : string) (lines : list row) (k : nat)
    (s s' : state W) :
  retries filename lines k s s' →
  ∃ evs, trace s' = trace s ++ evs
         ∧ weight opens_file evs = S k
         ∧ weight prompts evs = k.
Proof.
  induction 1 as [s s' Hw | k s s1 s2 s' e partial answer Hw He Hp _ IH
                  | k s s1 s2 s' partial answer Hw Hp Hy HY Hn _ IH].
  - exists [OpenFile filename]. split; [|done].
    pose proof (try_write_trace filename lines s) as Ht1. by rewrite Hw in Ht1.
  - destruct IH as (evs & Ht & Ho & Hpr).
    exists ([OpenFile filename] ++ [Prompt (retry_prompt e)] ++ evs).
    split; [|by rewrite !weight_app, Ho, Hpr].
    pose proof (try_write_trace filename lines s) as Ht1. rewrite Hw in Ht1.
    pose proof (prompt_trace (retry_prompt e) s1) as Ht2. rewrite Hp in Ht2.
    simpl in Ht1, Ht2. by rewrite Ht, Ht2, Ht1, <- !app_assoc.
  - destruct IH as (evs & Ht & Ho & Hpr).
    exists ([OpenFile filename] ++ [Prompt exit_prompt] ++ evs).
    split; [|by rewrite !weight_app, Ho, Hpr].
    pose proof (try_write_trace filename lines s) as Ht1. rewrite Hw in Ht1.
    pose proof (prompt_trace exit_prompt s1) as Ht2. rewrite Hp in Ht2.
    simpl in Ht1, Ht2. by rewrite Ht, Ht2, Ht1, <- !app_assoc.
Qed.

Lemma alternating_open (f : string) : alternating [OpenFile f].
Proof. unfold alternating; simpl; lia. Qed.

Lemma alternating_open_prompt (f msg : string) : alternating [OpenFile f; Prompt msg].
Proof. unfold alternating; simpl; lia. Qed.

Lemma alternating_cons (f msg : string) (evs : list event) :
  alternating evs → alternating (OpenFile f :: Prompt msg :: evs).
Proof. unfold alternating; simpl; lia. Qed.

Lemma write_loop_alternates (fuel : nat) (filename : string) (lines : list row)
    (s : state W) (r : result unit) (s' : state W) :
  write_loop fuel filename lines s = Some (r, s') →
  ∃ evs, trace s' = trace s ++ evs ∧ alternating evs.
Proof.
  revert s. induction fuel as [|fuel IH]; intros s; [discriminate|].
  simpl. pose proof (try_write_trace filename lines s) as Ht1.
  destruct (try_write filename lines s) as [[o|e0] s1]; simpl in Ht1; last first.
  { intros [= <- <-]. eexists; split; [exact Ht1|apply alternating_open]. }
  assert (Hprompt : ∀ msg (k : string → state W → option (result unit * state W)),
            (∀ a s2, k a s2 = Some (r, s') →
               trace s2 = trace s ++ [OpenFile filename; Prompt msg] →
               ∃ evs, trace s' = trace s ++ evs ∧ alternating evs) →
            match prompt msg s1 with
            | (Raise e', s2) => Some (Raise e', s2)
            | (Ok a, s2) => k a s2
            end = Some (r, s') →
            ∃ evs, trace s' = trace s ++ evs ∧ alternating evs).
  { intros msg k Hk. pose proof (prompt_trace msg s1) as Ht2.
    destruct (prompt msg s1) as [[a|e'] s2]; simpl in Ht2;
      rewrite Ht1, <- app_assoc in Ht2; simpl in Ht2.
    - intros Hrun. by apply (Hk a s2).
    - intros [= <- <-]. eexists; split; [exact Ht2|apply alternating_open_prompt]. }
  assert (Hnext : ∀ msg s2, write_loop fuel filename lines s2 = Some (r, s') →
            trace s2 = trace s ++ [OpenFile filename; Prompt msg] →
            ∃ evs, trace s' = trace s ++ evs ∧ alternating evs).
  { intros msg s2 Hrun Ht2. destruct (IH s2 Hrun) as (evs & Ht & Halt).
    exists (OpenFile filename :: Prompt msg :: evs). split.
    - rewrite Ht, Ht2, <- app_assoc. reflexivity.
    - by apply alternating_cons. }
  assert (Hdone : ∀ msg r0 s2, Some (r0, s2) = Some (r, s') →
            trace s2 = trace s ++ [OpenFile filename; Prompt msg] →
            ∃ evs, trace s' = trace s ++ evs ∧ alternating evs).
  { intros msg r0 s2 [= <- <-] Ht2.
    eexists; split; [exact Ht2|apply alternating_open_prompt]. }
  destruct o as [|e partial|e k]; simpl.
  - intros [= <- <-]. eexists; split; [exact Ht1|apply alternating_open].
  - destruct (is_Exception e).
    { apply Hprompt. intros a s2. apply Hnext. }
    destruct (bool_decide (e = KeyboardInterrupt)).
    { apply Hprompt. intros a s2. destruct (confirm_exit a); [apply Hdone|apply Hnext]. }
    intros [= <- <-]. eexists; split; [exact Ht1|apply alternating_open].
  - destruct (is_Exception e).
    { apply Hprompt. intros a s2. apply Hdone. }
    destruct (bool_decide (e = KeyboardInterrupt)).
    { apply Hprompt. intros a s2. destruct (confirm_exit a); apply Hdone. }
    intros [= <- <-]. eexists; split; [exact Ht1|apply alternating_open].
Qed.

(** X9.  Every run of the retry loop that ends, normally or with an
    exception, has opened the output file at least once, and it has
    prompted the user as often as it opened the file or once less: no
    pass is retried without a prompt and no prompt is shown without a
    pass before it.  A run in which [k] passes break inside the [with]
    block and are retried before one writes ends normally with fuel for
    [k + 1] passes, having opened the file [k + 1] times and prompted
    [k] times. *)
Theorem write_loop_opens_and_prompts (fuel : nat) (filename : string)
    (lines : list row) (s : state W) :
  (∀ r s', write_loop fuel filename lines s = Some (r, s') →
     ∃ evs, trace s' = trace s ++ evs
            ∧ (1 ≤ weight opens_file evs)%nat
            ∧ (weight prompts evs ≤ weight opens_file evs)%nat
            ∧ (weight opens_file evs ≤ S (weight prompts evs))%nat)
  ∧ (∀ k s', retries filename lines k s s' → (k < fuel)%nat →
       write_loop fuel filename lines s = Some (Ok (), s')
       ∧ ∃ evs, trace s' = trace s ++ evs
                ∧ weight opens_file evs = S k
                ∧ weight prompts evs = k).
Proof.
  split.
  - intros r s' Hrun. by apply (write_loop_alternates fuel filename lines s r s').
  - intros k s' Hr Hlt. split.
    + by apply (write_loop_retries filename lines k).
    + by apply (retries_trace filename lines k).
Qed.

(** X10.  The prompt that follows a failed pass is not protected: an
    interrupt while the program waits there leaves the loop at once, no
    confirmation is asked, the top level turns it into the exit
    [# Scan interrupted], and the file stays as the failed pass left
    it. *)
Theorem interrupt_at_prompt_exits (fuel : nat) (filename : string)
    (lines : list row) (e : exn) (partial : option nat) (s s1 s2 : state W) :
  try_write filename lines s = (Ok (Broke e partial), s1) →
  is_Exception e = true →
  prompt (retry_prompt e) s1 = (Raise KeyboardInterrupt, s2) →
  write_loop (S fuel) filename lines s = Some (Raise KeyboardInterrupt, s2)
  ∧ top_level (Raise KeyboardInterrupt, s2)
    = (Raise (SystemExit "# Scan interrupted"), s2)
  ∧ files s2 = after_write filename lines (Broke e partial) (files s).
Proof.
  intros Hw He Hp. split; [|split].
  - by rewrite (write_loop_failed fuel filename lines s s1 e partial Hw He), Hp.
  - reflexivity.
  - pose proof (prompt_files (retry_prompt e) s1) as Hf. rewrite Hp in Hf. simpl in Hf.
    destruct (try_write_total filename lines s) as (o & Ho & Hfs & _).
    rewrite Hw in Ho, Hfs. simpl in Ho, Hfs. injection Ho as <-.
    by rewrite Hf, Hfs.
Qed.

End RetryLoop.

Lemma write_loop_opens_and_prompts_witness :
  ∃ s', write_loop 3 "out.csv" [["row"]]
          (Fake.fresh false None
             (Fake.mkWorld [Broke (IOError "Permission denied") None;
                            Broke KeyboardInterrupt (Some 0%nat)]
                           [Ok ""; Ok "n"] 0)) = Some (Ok (), s')
        ∧ weight opens_file (trace s') = 3%nat
        ∧ weight prompts (trace s') = 2%nat.
Proof.
  set (s0 := Fake.fresh false None
               (Fake.mkWorld [Broke (IOError "Permission denied") None;
                              Broke KeyboardInterrupt (Some 0%nat)]
                             [Ok ""; Ok "n"] 0)).
  assert (∃ s', retries "out.csv" [["row"]] 2 s0 s') as [s' Hr].
  { eexists.
    eapply retries_after_error; [vm_compute; reflexivity..|].
    eapply retries_after_declined_interrupt; [vm_compute; reflexivity|vm_compute; reflexivity|discriminate..|].
    eapply retries_written. vm_compute. reflexivity. }
  destruct (proj2 (write_loop_opens_and_prompts 3 "out.csv" [["row"]] s0) 2%nat s' Hr)
    as (Hrun & evs & Ht & Ho & Hp); [lia|].
  exists s'. split; [exact Hrun|].
  rewrite Ht. split; [exact Ho | exact Hp].
Defined.

Lemma interrupt_at_prompt_exits_witness :
  fst <$> main 2 (mkArgs ["8.8.8.8"] (Some "out.csv") None None false true)
            (Fake.mkWorld [Broke (IOError "Permission denied") None]
                          [Raise KeyboardInterrupt] 0) ∅
  = Some (Raise (SystemExit "# Scan interrupted"))
  ∧ ∃ s2, write_loop 2 "out.csv" [["row"]]
            (Fake.fresh false None
               (Fake.mkWorld [Broke (IOError "Permission denied") None]
                             [Raise KeyboardInterrupt] 0))
          = Some (Raise KeyboardInterrupt, s2).
Proof.
  split; [vm_compute; reflexivity|].
  eexists.
  eapply (λ s1 s2 Hw Hp,
            proj1 (interrupt_at_prompt_exits 1 "out.csv" [["row"]]
                     (IOError "Permission denied") None _ s1 s2 Hw eq_refl Hp)).
  - vm_compute. reflexivity.
  - vm_compute. reflexivity.
Defined.

(** ** The top level *)

(** Weight zero for a weight that only counts events of the export. *)
Ltac count_quiet Hμ :=
  lazymatch goal with
  | |- counts _ _ _ _ (mret _) => apply counts_ret
  | |- counts _ _ _ _ (raise _) => apply counts_raise
  | |- counts _ _ _ _ (lift _) => apply counts_lift
  | |- counts _ _ _ _ (call _) => apply counts_call
  | |- counts _ _ _ _ (targets_add _) => apply counts_targets_add
  | |- counts _ _ _ _ (bad_targets_add _) => apply counts_bad_targets_add
  | |- counts _ _ _ _ (store _ _) => apply counts_store
  | |- counts _ _ _ _ (emit _) => apply counts_emit0; apply Hμ; reflexivity
  | |- counts _ _ _ _ (print _) => apply counts_emit0; apply Hμ; reflexivity
  | |- counts _ _ _ _ (print_listing _) => apply counts_emit0; apply Hμ; reflexivity
  | |- counts _ _ _ _ (enter _ _) => unfold enter; count_quiet Hμ
  | |- counts _ _ _ _ (when _ _) => unfold when; count_quiet Hμ
  | |- counts _ _ _ _ (get ≫= _) => apply counts_get_bind; intros ? ?; count_quiet Hμ
  | |- counts _ _ _ _ (_ ≫= _) =>
      apply counts_bind0; [count_quiet Hμ | intros ?; count_quiet Hμ]
  | |- counts _ _ _ _ (if _ then _ else _) => apply counts_ite; count_quiet Hμ
  | |- counts _ _ _ _ (for_each _ _) => apply counts_for_each; intros ?; count_quiet Hμ
  | |- counts _ _ _ _ (try_except _ _ _) =>
      apply counts_try_except; [count_quiet Hμ | intros ?; count_quiet Hμ]
  | |- counts _ _ _ _ (let _ := _ in _) => cbv zeta; count_quiet Hμ
  | |- _ => idtac
  end.

Section TopLevel.
Context {W : Type} `{Collaborators W}.

Section Quiet.
Context (lk : lookup_module) (d : bool) (μ : event → nat).
Hypothesis Hμ : ∀ e, of_export e = false → μ e = 0%nat.

Lemma add_host_quiet (raw : string) : counts lk d μ 0 (add_host raw).
Proof. unfold add_host. count_quiet Hμ. Qed.

Lemma scan_target_quiet (target : Target) : counts lk d μ 0 (scan_target target).
Proof.
  destruct target as [h|n]; simpl;
    unfold dns_scan_on_host, full_scan_on_host, reverse_dns_on_network;
    count_quiet Hμ.
Qed.

Lemma scan_phase_quiet (inputs : list string) : counts lk d μ 0 (scan_phase inputs).
Proof.
  unfold scan_phase, populate, scan_targets.
  apply counts_bind0; [count_quiet Hμ | intros _].
  apply counts_bind0.
  - apply counts_bind0; [apply counts_for_each, add_host_quiet | intros _].
    count_quiet Hμ.
  - intros _. apply counts_get_bind; intros s0 _.
    apply scan_from_counts, scan_target_quiet.
Qed.

End Quiet.

Lemma scan_phase_files (inputs : list string) :
  preserves (W:=W) files (scan_phase inputs).
Proof.
  unfold scan_phase.
  apply preserves_bind; [preserve | intros _].
  apply preserves_bind; [apply populate_files | intros _].
  unfold scan_targets. apply preserves_get_bind; intros s0.
  apply scan_from_preserves; [apply scan_target_files | by intros ? ? ?].
Qed.

Lemma top_level_result (e : exn) (s : state W) :
  (top_level (Raise e, s)).1 ≠ Raise KeyboardInterrupt
  ∧ (top_level (Raise e, s)).1 ≠ Raise NoNameservers
  ∧ (top_level (Raise e, s)).2 = s.
Proof. by destruct e. Qed.

(** X11.  Without an output path (none given, or an empty one) a run
    never opens a file and never prompts, with any fuel, and the files
    are at its end what they were at its start. *)
Theorem main_without_output (fuel : nat) (args : Args) (w : W)
    (fs : gmap string (list row)) :
  truthy_opt (arg_output args) = false →
  ∃ r s', main fuel args w fs = Some (r, s')
          ∧ files s' = fs
          ∧ weight opens_file (trace s') = 0%nat
          ∧ weight prompts (trace s') = 0%nat.
Proof.
  intros Hout. unfold main.
  destruct (init _ _ _ _ _ _) as [scan lk].
  set (s0 := mkState scan lk w [] fs).
  pose proof (scan_phase_files (sorted_set (arg_targets args)) s0) as Hfiles.
  assert (∀ μ, (∀ e, of_export e = false → μ e = 0%nat) →
               weight μ (trace (scan_phase (sorted_set (arg_targets args)) s0).2)
               = 0%nat) as Hquiet.
  { intros μ Hμ.
    destruct (scan_phase_quiet (lookup s0) (dns_only (self s0)) μ Hμ
                (sorted_set (arg_targets args)) s0 (conj eq_refl eq_refl))
      as [_ (evs & Ht & Hle & _)].
    rewrite Ht. simpl. lia. }
  pose proof (Hquiet opens_file ltac:(by intros [])) as Hopen.
  pose proof (Hquiet prompts ltac:(by intros [])) as Hprompt.
  destruct (scan_phase (sorted_set (arg_targets args)) s0) as [[[]|e] s1];
    simpl in Hfiles, Hopen, Hprompt.
  - unfold write_output_csv. rewrite Hout. eexists _, _. split; [reflexivity|].
    simpl. by rewrite !weight_app, Hopen, Hprompt.
  - destruct (top_level_result e s1) as (_ & _ & Hs).
    destruct (top_level (Raise e, s1)) as [r s2]. simpl in Hs. subst s2.
    eexists _, _. split; [reflexivity|]. done.
Qed.

(** X12.  Neither [KeyboardInterrupt] nor [NoNameservers] leaves the
    program as it was raised: whatever a run does, if it ends with an
    exception it is not one of these two, which the top level turns
    into exits with a message. *)
Theorem main_exit_kinds (fuel : nat) (args : Args) (w : W)
    (fs : gmap string (list row)) (r : result unit) (s' : state W) :
  main fuel args w fs = Some (r, s') →
  r ≠ Raise KeyboardInterrupt ∧ r ≠ Raise NoNameservers.
Proof.
  unfold main. destruct (init _ _ _ _ _ _) as [scan lk].
  destruct (scan_phase _ _) as [[[]|e] s1].
  - destruct (write_output_csv fuel (arg_output args) s1) as [[[[]|e] s2]|];
      [|..|discriminate].
    + intros [= <- <-]. done.
    + destruct (top_level_result e s2) as (Hk & Hn & _).
      intros Heq. assert (top_level (Raise e, s2) = (r, s')) as Htl by congruence.
      rewrite Htl in Hk, Hn. done.
  - destruct (top_level_result e s1) as (Hk & Hn & _).
    intros Heq. assert (top_level (Raise e, s1) = (r, s')) as Htl by congruence.
    rewrite Htl in Hk, Hn. done.
Qed.

(** X13.  The rows of the export are the blocks of the targets in the
    order of iteration, each block being the rows that the target
    yields followed by the one separator row; so the file has one row
    more per target than the targets yield. *)
Theorem output_as_lines_blocks (ts1 ts2 : list Target) (t : Target) :
  output_as_lines (ts1 ++ t :: ts2)
    = output_as_lines ts1 ++ (print_as_csv_lines t ++ [[newline]])
      ++ output_as_lines ts2
  ∧ length (output_as_lines (ts1 ++ t :: ts2))
    = (sum_list_with (λ t, length (print_as_csv_lines t)) (ts1 ++ t :: ts2)
       + length (ts1 ++ t :: ts2))%nat.
Proof.
  split.
  - unfold output_as_lines. by rewrite bind_app, bind_cons.
  - generalize (ts1 ++ t :: ts2). intros ts. unfold output_as_lines.
    induction ts as [|x ts IH]; [done|].
    rewrite bind_cons, !length_app, IH. simpl. lia.
Qed.

End TopLevel.

Lemma main_without_output_witness :
  (λ r, (files r.2, weight opens_file (trace r.2)))
    <$> main 0 (mkArgs ["8.8.8.8"] (Some "") None None false true) Fake.quiet ∅
  = Some (∅, 0%nat).
Proof.
  destruct (main_without_output 0 (mkArgs ["8.8.8.8"] (Some "") None None false true)
              Fake.quiet ∅ eq_refl) as (r & s' & Hrun & Hf & Ho & _).
  rewrite Hrun. simpl. by rewrite Hf, Ho.
Defined.

Lemma main_exit_kinds_witness :
  fst <$> main 1 (mkArgs ["unreachable.example"] None None None false false)
            Fake.quiet ∅
  ≠ Some (Raise NoNameservers).
Proof.
  destruct (main 1 (mkArgs ["unreachable.example"] None None None false false)
              Fake.quiet ∅) as [[r s']|] eqn:Hrun; [|discriminate].
  destruct (main_exit_kinds _ _ _ _ r s' Hrun) as [_ Hn].
  simpl. congruence.
Defined.

(** ** The settings of a run *)

Section Settings.
Context {W : Type} `{Collaborators W}.

Lemma try_write_preserves {X} (f : state W → X) (filename : string)
    (lines : list row) :
  (∀ s1 s2, self s1 = self s2 → lookup s1 = lookup s2 → f s1 = f s2) →
  preserves f (try_write filename lines) ∧ ∀ msg, preserves f (prompt msg).
Proof.
  intros Hf. split.
  - intros s. unfold try_write, emit, get, call, set_files, mbind, M_bind, mret, M_ret.
    simpl. destruct (open_and_write filename lines (world s)) as [o w']. simpl.
    by apply Hf.
  - intros msg s. unfold prompt, emit, call, mbind, M_bind. simpl.
    destruct (raw_input msg (world s)) as [r w']. simpl. by apply Hf.
Qed.

Lemma write_loop_preserves {X} (f : state W → X) (filename : string)
    (lines : list row) (fuel : nat) :
  preserves f (try_write filename lines) → (∀ msg, preserves f (prompt msg)) →
  ∀ s r s', write_loop fuel filename lines s = Some (r, s') → f s' = f s.
Proof.
  intros Hw Hp. induction fuel as [|fuel IH]; intros s r s'; simpl; [discriminate|].
  pose proof (Hw s) as Hw1.
  destruct (try_write filename lines s) as [[o|e] s1]; simpl in Hw1;
    [|by intros [= <- <-]].
  assert (∀ s2, f s2 = f s →
            (if output_written o then Some (Ok (), s2)
             else write_loop fuel filename lines s2) = Some (r, s') →
            f s' = f s) as Hagain.
  { intros s2 Hs2. destruct (output_written o).
    - by intros [= <- <-].
    - intros Hrun. by rewrite (IH _ _ _ Hrun). }
  destruct (raised o) as [e|]; [|by apply Hagain].
  destruct (is_Exception e).
  - pose proof (Hp (retry_prompt e) s1) as Hp1. unfold retry_prompt in Hp1.
    destruct (prompt _ s1) as [[answer|e'] s2]; simpl in Hp1.
    + apply Hagain. congruence.
    + intros [= <- <-]. congruence.
  - destruct (bool_decide (e = KeyboardInterrupt)); [|by intros [= <- <-]].
    pose proof (Hp exit_prompt s1) as Hp1. unfold exit_prompt in Hp1.
    destruct (prompt _ s1) as [[answer|e'] s2]; simpl in Hp1.
    + destruct (confirm_exit answer).
      * intros [= <- <-]. congruence.
      * apply Hagain. congruence.
    + intros [= <- <-]. congruence.
Qed.

(** X14.  The settings of a run are fixed by the command line before
    anything is scanned and never change afterwards: at the end of any
    run the Shodan key is the one of [--shodan_key] when that is given
    and not empty and the one of the environment otherwise, the
    nameserver list is the one of [--nameserver] when given and not
    empty, no timeout is set, and the mode is the one of
    [--dns_only]. *)
Theorem main_settings (fuel : nat) (args : Args) (w : W)
    (fs : gmap string (list row)) (r : result unit) (s' : state W) :
  main fuel args w fs = Some (r, s') →
  shodan_key (lookup s')
    = (if truthy_opt (arg_shodan_key args) then arg_shodan_key args
       else getenv "SHODAN_KEY")
  ∧ nameservers (lookup s')
    = match arg_nameserver args with
      | Some n => if truthy n then Some [n] else None
      | None => None
      end
  ∧ timeout (lookup s') = None ∧ lifetime (lookup s') = None
  ∧ dns_only (self s') = arg_dns_only args.
Proof.
  unfold main.
  destruct (init _ _ _ _ _ _) as [scan lk] eqn:Hinit.
  unfold init in Hinit. simpl in Hinit. injection Hinit as <- Hlk.
  set (s0 := mkState (mkInstaRecon (arg_dns_only args) [] ∅) lk w [] fs).
  intros Hrun.
  assert (keeps lk (arg_dns_only args) s') as [Hl Hd]; last first.
  { rewrite Hl, Hd, <- Hlk. simpl. by destruct (arg_nameserver args). }
  assert (keeps lk (arg_dns_only args)
            (scan_phase (sorted_set (arg_targets args)) s0).2) as Hscan.
  { apply (scan_phase_quiet lk (arg_dns_only args) (λ _, 0%nat)); done. }
  destruct (scan_phase (sorted_set (arg_targets args)) s0) as [[[]|e] s1];
    simpl in Hscan.
  - assert (∀ r2 s2, write_output_csv fuel (arg_output args) s1 = Some (r2, s2) →
                     keeps lk (arg_dns_only args) s2) as Hwrite.
    { intros r2 s2. unfold write_output_csv.
      destruct (truthy_opt (arg_output args)); [|by intros [= <- <-]].
      simpl. intros Hloop. destruct Hscan as [Hl1 Hd1]. split.
      - destruct (try_write_preserves lookup (expanduser (default "" (arg_output args)))
                    (output_as_lines (targets (self s1)))) as [Hw Hp];
          [by intros ? ? _ ?|].
        by rewrite (write_loop_preserves lookup _ _ fuel Hw Hp _ _ _ Hloop).
      - destruct (try_write_preserves (λ s, dns_only (self s))
                    (expanduser (default "" (arg_output args)))
                    (output_as_lines (targets (self s1)))) as [Hw Hp];
          [by intros ? ? -> _|].
        by rewrite (write_loop_preserves (λ s, dns_only (self s)) _ _ fuel Hw Hp
                      _ _ _ Hloop). }
    destruct (write_output_csv fuel (arg_output args) s1) as [[[[]|e] s2]|];
      [| |discriminate].
    + injection Hrun as <- <-. by apply (Hwrite (Ok ()) s2).
    + destruct (top_level_result e s2) as (_ & _ & Hs).
      assert (top_level (Raise e, s2) = (r, s')) as Htl by congruence.
      rewrite Htl in Hs. simpl in Hs. subst s'. by apply (Hwrite (Raise e) s2).
  - destruct (top_level_result e s1) as (_ & _ & Hs).
    assert (top_level (Raise e, s1) = (r, s')) as Htl by congruence.
    rewrite Htl in Hs. simpl in Hs. by subst s'.
Qed.

End Settings.

Lemma main_settings_witness :
  (λ r, shodan_key (lookup r.2))
    <$> main 1 (mkArgs ["8.8.8.8"] None None (Some "KEY") false false) Fake.quiet ∅
  = Some (Some "KEY").
Proof.
  assert (∃ r s', main 1 (mkArgs ["8.8.8.8"] None None (Some "KEY") false false)
                    Fake.quiet ∅ = Some (r, s')) as (r & s' & Hrun)
    by (vm_compute; eauto).
  destruct (main_settings _ _ _ _ r s' Hrun) as (Hkey & _).
  rewrite Hrun. simpl. by rewrite Hkey.
Defined.
